(** * SirServer: the tile store and the repository scanner of package [sfile]

    A shallow embedding of [sfile/Repository.go] (bounding boxes, the
    Mercator projector, the repository scanner and catalogue) and of the
    tile store ([SRepository.GetXYZ] and [NewRepository]), together with
    the properties the specification states about them and further
    properties read off the code.

    Conventions of the embedding:
    - Go's [int8], [int32] and [int64] are [Z] with the wrap-around written
      out ([wrap]); [/] and [%] are [Z.quot] and [Z.rem] (truncation).
    - [float64] is IEEE 754 binary64 as specified by [spec_float], with
      round-to-nearest-even arithmetic ([SFadd 53 1024] and the like).
    - A path is the list of its components; [filepath.Join] appends
      components and [path_str] renders the path for messages.
    - The file system and the log of database handles form the [world]
      that every effectful function threads ([M]). *)

From Stdlib Require Import ZArith QArith Floats.SpecFloat Init.Byte.
From Stdlib Require Import Ascii String.
From stdpp Require Import gmap strings list pretty.

Open Scope Z_scope.

(** ** Machine integers *)

Definition wrap (bits : Z) (v : Z) : Z :=
  (v + 2 ^ (bits - 1)) mod 2 ^ bits - 2 ^ (bits - 1).

Definition in_int (bits : Z) (v : Z) : Prop :=
  - 2 ^ (bits - 1) <= v < 2 ^ (bits - 1).

(** ** float64 *)

Module F64.

Definition float64 := spec_float.

Definition prec : Z := 53.
Definition emax : Z := 1024.

Definition add : float64 -> float64 -> float64 := SFadd prec emax.
Definition sub : float64 -> float64 -> float64 := SFsub prec emax.
Definition mul : float64 -> float64 -> float64 := SFmul prec emax.
Definition div : float64 -> float64 -> float64 := SFdiv prec emax.
Definition neg : float64 -> float64 := SFopp.

Definition ltb : float64 -> float64 -> bool := SFltb.
(** Go's [x != y]: true when the operands are unordered (a NaN). *)
Definition neb (x y : float64) : bool := negb (SFeqb x y).

Definition valid (x : float64) : bool := valid_binary prec emax x.

(** Neither a NaN nor an infinity. *)
Definition is_finite (x : float64) : bool :=
  match x with
  | S754_zero _ | S754_finite _ _ _ => true
  | S754_infinity _ | S754_nan => false
  end.

(** [float64(n)] for an integer [n]. *)
Definition of_int (n : Z) : float64 := binary_normalize prec emax n 0 false.

(** The value of an untyped constant expression, which Go evaluates
    exactly and rounds once when it becomes a [float64]. *)
Definition of_const (q : Q) : float64 :=
  match Qnum q with
  | Z0 => S754_zero false
  | Zpos n => div (S754_finite false n 0) (S754_finite false (Qden q) 0)
  | Zneg n => div (S754_finite true n 0) (S754_finite false (Qden q) 0)
  end.

(** [math.MaxFloat64] *)
Definition MaxFloat64 : float64 := SFmax_float prec emax.

Definition zero : float64 := S754_zero false.

(** The builtin [min] and [max] at type [float64] (the runtime's [fmin]
    and [fmax]): a NaN operand gives NaN, and [-0] is below [+0]. *)
Definition orbits (x y : float64) : float64 :=
  match x, y with
  | S754_zero sx, S754_zero sy => S754_zero (sx || sy)
  | _, _ => x
  end.
Definition andbits (x y : float64) : float64 :=
  match x, y with
  | S754_zero sx, S754_zero sy => S754_zero (sx && sy)
  | _, _ => x
  end.

Definition fmin (x y : float64) : float64 :=
  if neb y y || ltb y x then y
  else if neb x x || ltb x y || neb x zero then x
  else orbits x y.

Definition fmax (x y : float64) : float64 :=
  if neb y y || ltb x y then y
  else if neb x x || ltb y x || neb x zero then x
  else andbits x y.

End F64.

Abbreviation float64 := F64.float64.

(** ** Formatting verbs of [fmt.Sprintf] *)

(** [%c] applied to an [int8]: the character with that code, or U+FFFD
    (in UTF-8) for a negative value. *)
Definition fmt_c (v : Z) : string :=
  if bool_decide (0 <= v < 128)
  then String (ascii_of_N (Z.to_N v)) EmptyString
  else String (ascii_of_N 239) (String (ascii_of_N 191) (String (ascii_of_N 189) EmptyString)).

(** [%d] *)
Definition fmt_d (v : Z) : string := pretty v.

(** ** Paths *)

Definition path := list string.

Definition filepath_Join (dir : path) (elems : list string) : path := dir ++ elems.

Fixpoint path_str (p : path) : string :=
  match p with
  | [] => ""
  | [a] => a
  | a :: rest => a +:+ "/" +:+ path_str rest
  end.

(** ** Errors *)

Inductive errno := ENOENT | EACCES | ENOTDIR | EISDIR | ENOSPC.

Inductive error :=
  | PathError (op : string) (p : path) (e : errno)   (* *fs.PathError *)
  | SqlError (msg : string)                          (* from database/sql or the driver;
                                                        the text stands for theirs, which
                                                        the program only passes on *)
  | JsonError (msg : string)                         (* from encoding/json *)
  | Errorf (msg : string)                            (* fmt.Errorf *)
  | Wrapf (msg : string) (cause : error).            (* fmt.Errorf with %w *)

Inductive result (A : Type) :=
  | Ok (a : A)
  | Err (e : error).
Arguments Ok {A} a.
Arguments Err {A} e.

Definition os_IsNotExist {A} (r : result A) : bool :=
  match r with
  | Err (PathError _ _ ENOENT) => true
  | _ => false
  end.

(** ** Data model *)

Record Box := mkBox {
  minx : float64;
  miny : float64;
  maxx : float64;
  maxy : float64
}.

Record Repository := mkRepository {
  Name : string;
  Lng : float64;
  Lat : float64;
  Zoom : Z;
  Size : float64;
  Url : string;
  Pared : bool
}.

Record SRepository := { dir : path }.

(** One row of a tile table: [(ID integer primary key, X, Y, Data blob)]. *)
Record row := mkRow {
  ID : Z;
  X : Z;
  Y : Z;
  Data : list byte
}.

Record table := mkTable {
  t_name : string;
  t_rows : list row
}.

(** What a regular file holds: an SQLite database (its tables in name
    order), the JSON text of a descriptor, or bytes that are neither. *)
Inductive body :=
  | Sqlite (tables : list table)
  | Json (r : Repository)
  | Opaque.

Inductive node :=
  | Dir (readable writable : bool) (names : list string)
  | File (size : Z) (b : body).

(** Functions of Go's standard library whose results the program uses but
    whose algorithms, or the state they depend on, are outside the
    repository. *)
Class GoLib := {
  math_Pow : float64 -> float64 -> float64;
  math_Exp : float64 -> float64;
  math_Atan : float64 -> float64;
  (** the number of bytes [json.MarshalIndent] produces *)
  json_len : Repository -> Z;
  (** [file.Write] of a number of bytes to the file at a path:
      [None] when all of them are written, [Some k] when the write fails
      after [k] bytes (the volume is full, say) *)
  write_fault : path -> Z -> option Z
}.

(** ** The world and the monad of effects *)

Inductive event :=
  | SqlOpen (p : path)
  | SqlClose (p : path).

Record world := mkWorld {
  files : gmap path node;
  sql_log : list event
}.

Definition M (A : Type) : Type := world -> result A * world.

Definition ret {A} (a : A) : M A := fun w => (Ok a, w).
Definition fail {A} (e : error) : M A := fun w => (Err e, w).
Definition bind {A B} (m : M A) (k : A -> M B) : M B :=
  fun w =>
    match m w with
    | (Ok a, w') => k a w'
    | (Err e, w') => (Err e, w')
    end.

Notation "x <- m ;; k" := (bind m (fun x => k))
  (at level 100, m at next level, right associativity).

(** Runs [m] and hands its outcome, error or not, to the continuation:
    the [v, err := f(); if err != nil { ... }] of the source. *)
Definition attempt {A} (m : M A) : M (result A) :=
  fun w => let '(r, w') := m w in (Ok r, w').

(** [defer d] around the rest of the function body. *)
Definition deferring {A} (d : world -> world) (m : M A) : M A :=
  fun w => let '(r, w') := m w in (r, d w').

Definition log_event (e : event) (w : world) : world :=
  {| files := files w; sql_log := sql_log w ++ [e] |}.

(** ** Package [os] *)

Record DirEntry := mkDirEntry {
  de_Name : string;
  de_IsDir : bool
}.

Record FileInfo := mkFileInfo {
  fi_Size : Z;
  fi_IsDir : bool
}.

Definition is_dir (n : option node) : bool :=
  match n with
  | Some (Dir _ _ _) => true
  | _ => false
  end.

(** Whether a proper prefix of the path [prefix ++ rest], longer than
    [prefix], is a regular file: the path then cannot be resolved. *)
Fixpoint file_above (fs : gmap path node) (prefix : path) (rest : list string) : bool :=
  match rest with
  | [] => false
  | n :: rest' =>
      match rest' with
      | [] => false
      | _ :: _ =>
          match fs !! (prefix ++ [n]) with
          | Some (File _ _) => true
          | _ => file_above fs (prefix ++ [n]) rest'
          end
      end
  end.

(** The error of resolving an absent path: a missing file (ENOENT),
    unless one of its parents is a regular file (ENOTDIR).  Search
    permission is not modelled: every directory can be traversed, so no
    path fails to resolve with EACCES. *)
Definition missing_errno (fs : gmap path node) (p : path) : errno :=
  if file_above fs [] p then ENOTDIR else ENOENT.

Definition os_ReadDir (p : path) : M (list DirEntry) :=
  fun w =>
    match files w !! p with
    | Some (Dir true _ names) =>
        (Ok (map (fun n => mkDirEntry n (is_dir (files w !! (p ++ [n])))) names), w)
    | Some (Dir false _ _) => (Err (PathError "open" p EACCES), w)
    | Some (File _ _) => (Err (PathError "readdirent" p ENOTDIR), w)
    | None => (Err (PathError "open" p (missing_errno (files w) p)), w)
    end.

(** [os.Stat].  For an absent path under a regular file the error is
    ENOTDIR, which [os.IsNotExist] does not accept.  The size of a
    directory is not used by the program and is given as 0. *)
Definition os_Stat (p : path) : M FileInfo :=
  fun w =>
    match files w !! p with
    | Some (File size _) => (Ok (mkFileInfo size false), w)
    | Some (Dir _ _ _) => (Ok (mkFileInfo 0 true), w)
    | None => (Err (PathError "stat" p (missing_errno (files w) p)), w)
    end.

(** [os.Open] followed by reading the whole file. *)
Definition os_ReadFile (p : path) : M body :=
  fun w =>
    match files w !! p with
    | Some (File _ b) => (Ok b, w)
    | Some (Dir _ _ _) => (Err (PathError "read" p EISDIR), w)
    | None => (Err (PathError "open" p (missing_errno (files w) p)), w)
    end.

Definition parent (p : path) : path := removelast p.

Definition add_name (n : string) (names : list string) : list string :=
  if bool_decide (n ∈ names) then names else names ++ [n].

(** [os.Create]: the file is created or truncated; it needs a writable
    parent directory and the path must not name a directory. *)
Definition os_Create (p : path) : M unit :=
  fun w =>
    match files w !! parent p, last p with
    | Some (Dir r true names), Some n =>
        match files w !! p with
        | Some (Dir _ _ _) => (Err (PathError "open" p EISDIR), w)
        | _ =>
            (Ok tt,
             {| files := <[p := File 0 Opaque]>
                           (<[parent p := Dir r true (add_name n names)]> (files w));
                sql_log := sql_log w |})
        end
    | Some (Dir _ false _), _ => (Err (PathError "open" p EACCES), w)
    | Some (File _ _), _ => (Err (PathError "open" p ENOTDIR), w)
    | _, _ => (Err (PathError "open" p (missing_errno (files w) p)), w)
    end.

(** [file.Write] of a whole buffer to a file just created.  When the
    write fails the file keeps the bytes written so far, which are not
    the whole text. *)
Definition file_Write `{GoLib} (p : path) (size : Z) (b : body) : M unit :=
  fun w =>
    match files w !! p with
    | Some (File _ _) =>
        match write_fault p size with
        | None =>
            (Ok tt, {| files := <[p := File size b]> (files w); sql_log := sql_log w |})
        | Some k =>
            (Err (PathError "write" p ENOSPC),
             {| files := <[p := File k Opaque]> (files w); sql_log := sql_log w |})
        end
    | _ => (Err (PathError "write" p ENOENT), w)
    end.

(** ** Package [database/sql] over the SQLite driver *)

(** [sql.Open] validates the driver name only; the file is first touched
    by a query.  The handle is the path of the database file. *)
Definition sql_Open (driver : string) (p : path) : M path :=
  fun w =>
    if String.eqb driver "sqlite3"
    then (Ok p, log_event (SqlOpen p) w)
    else (Err (SqlError ("sql: unknown driver " +:+ driver)), w).

Definition db_Close (db : path) (w : world) : world := log_event (SqlClose db) w.

(** The tables of the database behind a handle, as [sqlite_master] lists
    them. *)
Definition db_tables (db : path) : M (list table) :=
  fun w =>
    match files w !! db with
    | Some (File _ (Sqlite ts)) => (Ok ts, w)
    | Some (File _ _) => (Err (SqlError "file is not a database"), w)
    | _ => (Err (SqlError "unable to open database file"), w)
    end.

(** The program splices table names into the SQL text without quotes, so
    the statement parses only if the name is a plain identifier: a letter,
    an underscore or a byte above 127, followed by such characters, digits
    or "$".  (Every name the program splices has two underscores, which no
    SQLite keyword has; a name that would parse as something else, one
    with a blank say, is taken as an error too.) *)
Definition sql_id_start (c : ascii) : bool :=
  let n := N_of_ascii c in
  ((65 <=? n) && (n <=? 90) || (97 <=? n) && (n <=? 122) || (n =? 95) || (128 <=? n))%N.

Definition sql_id_char (c : ascii) : bool :=
  let n := N_of_ascii c in
  (sql_id_start c || (48 <=? n) && (n <=? 57) || (n =? 36))%N.

Fixpoint sql_id_chars (s : string) : bool :=
  match s with
  | EmptyString => true
  | String c s' => sql_id_char c && sql_id_chars s'
  end.

Definition sql_identifier (s : string) : bool :=
  match s with
  | EmptyString => false
  | String c s' => sql_id_start c && sql_id_chars s'
  end.

Definition syntax_error (name : string) : error :=
  SqlError ("near " +:+ name +:+ ": syntax error").

(** SQLite compares names without regard to the case of ASCII letters. *)
Definition ascii_lower (c : ascii) : ascii :=
  let n := N_of_ascii c in
  if ((65 <=? n) && (n <=? 90))%N then ascii_of_N (n + 32) else c.

Fixpoint string_lower (s : string) : string :=
  match s with
  | EmptyString => EmptyString
  | String c s' => String (ascii_lower c) (string_lower s')
  end.

Definition find_table (name : string) (ts : list table) : option table :=
  List.find (fun t => String.eqb (string_lower (t_name t)) (string_lower name)) ts.

(** Connecting to the database file of a handle: it must be a file. *)
Definition db_connect (db : path) : M body :=
  fun w =>
    match files w !! db with
    | Some (File _ b) => (Ok b, w)
    | _ => (Err (SqlError "unable to open database file"), w)
    end.

(** Preparing a statement on table [name]: the text is parsed, then the
    schema is read and the table looked up. *)
Definition db_prepare (db : path) (name : string) : M table :=
  b <- db_connect db ;;
  if sql_identifier name then
    match b with
    | Sqlite ts =>
        match find_table name ts with
        | Some t => ret t
        | None => fail (SqlError ("no such table: " +:+ name))
        end
    | _ => fail (SqlError "file is not a database")
    end
  else fail (syntax_error name).

(** [select Data from <name> where ID=<index>]: the [Data] of the matching
    rows. *)
Definition query_Data (db : path) (name : string) (index : Z) : M (list (list byte)) :=
  t <- db_prepare db name ;;
  ret (map Data (filter (fun r => ID r = index) (t_rows t))).

Definition list_min (l : list Z) : option Z :=
  match l with
  | [] => None
  | a :: l' => Some (fold_left Z.min l' a)
  end.

Definition list_max (l : list Z) : option Z :=
  match l with
  | [] => None
  | a :: l' => Some (fold_left Z.max l' a)
  end.

(** [select min(X), max(X), min(Y), max(Y) from <name>] scanned into four
    [int64]: over an empty table the aggregates are NULL and [Scan] fails. *)
Definition query_extent (db : path) (name : string) : M (Z * Z * Z * Z) :=
  t <- db_prepare db name ;;
  let xs := map X (t_rows t) in
  let ys := map Y (t_rows t) in
  match list_min xs, list_max xs, list_min ys, list_max ys with
  | Some x0, Some x1, Some y0, Some y1 => ret (x0, x1, y0, y1)
  | _, _, _, _ =>
      fail (SqlError "sql: Scan error on column index 0: converting NULL to int64 is unsupported")
  end.

(** ** The tile store: [SRepository.GetXYZ] *)

(** [vz := max(z, 9)] at type [int8]. *)
Definition vz (z : Z) : Z := Z.max z 9.

(** ['A'+vz], an [int8] sum. *)
Definition zoomLetter (z : Z) : Z := wrap 8 (65 + vz z).

Definition subDir (z : Z) : string := fmt_c (zoomLetter z).

Definition dbFile (x y z : Z) : string :=
  fmt_c (zoomLetter z) +:+ "_" +:+ fmt_d (Z.quot x 256) +:+ "_" +:+ fmt_d (Z.quot y 256) +:+ ".s".

Definition tableName (x y z : Z) : string :=
  fmt_c (zoomLetter z) +:+ "_" +:+ fmt_d (Z.quot x 64) +:+ "_" +:+ fmt_d (Z.quot y 64).

(** [index := x%64 + 64*(y%64)], in [int64]. *)
Definition index (x y : Z) : Z := wrap 64 (Z.rem x 64 + wrap 64 (64 * Z.rem y 64)).

Definition filePath (f : SRepository) (x y z : Z) : path :=
  filepath_Join (dir f) [subDir z; dbFile x y z].

Definition not_exist (p : path) : error := Errorf (path_str p +:+ " not exist").

Definition GetXYZ (f : SRepository) (x y z : Z) : M (list byte) :=
  st <- attempt (os_Stat (filePath f x y z)) ;;
  if os_IsNotExist st then fail (not_exist (filePath f x y z))
  else
    db <- sql_Open "sqlite3" (filePath f x y z) ;;
    deferring (db_Close db)
      (rows <- query_Data db (tableName x y z) (index x y) ;;
       match rows with
       | data :: _ => ret data
       | [] => fail (not_exist (filePath f x y z))
       end).

(** The four values [GetXYZ] derives from a tile coordinate. *)
Definition address (x y z : Z) : string * string * string * Z :=
  (subDir z, dbFile x y z, tableName x y z, index x y).

(** ** Package [strings] and the name filters *)

Fixpoint strings_Split (s : string) (sep : ascii) : list string :=
  match s with
  | EmptyString => [EmptyString]
  | String c s' =>
      if Ascii.eqb c sep then EmptyString :: strings_Split s' sep
      else
        match strings_Split s' sep with
        | h :: t => String c h :: t
        | [] => [String c EmptyString]
        end
  end.

Fixpoint strings_HasSuffix (s suffix : string) : bool :=
  if String.eqb s suffix then true
  else
    match s with
    | EmptyString => false
    | String _ s' => strings_HasSuffix s' suffix
    end.

(** [regexp.MatchString("^[A-Z]$", name)] *)
Definition is_zoom_letter (name : string) : bool :=
  match name with
  | String c EmptyString =>
      let n := N_of_ascii c in (65 <=? n)%N && (n <=? 90)%N
  | _ => false
  end.

(** [s[0]] as a number.  Go panics on the empty string; the only caller
    passes names that [listTables] kept, which are not empty. *)
Definition byte0 (s : string) : Z :=
  match s with
  | String c _ => Z.of_N (N_of_ascii c)
  | EmptyString => 0
  end.

(** ** Bounding boxes *)

Definition NewBox : Box :=
  mkBox F64.MaxFloat64 F64.MaxFloat64 (F64.neg F64.MaxFloat64) (F64.neg F64.MaxFloat64).

Definition extend (b b2 : Box) : Box :=
  mkBox (F64.fmin (minx b) (minx b2))
        (F64.fmin (miny b) (miny b2))
        (F64.fmax (maxx b) (maxx b2))
        (F64.fmax (maxy b) (maxy b2)).

Definition IsEmpty (b : Box) : bool :=
  SFeqb (minx b) F64.MaxFloat64 && SFeqb (miny b) F64.MaxFloat64
  && SFeqb (maxx b) (F64.neg F64.MaxFloat64) && SFeqb (maxy b) (F64.neg F64.MaxFloat64).

(** ** The Mercator projector *)

(** [math.Pi], an untyped constant. *)
Definition math_Pi : Q :=
  3.14159265358979323846264338327950288419716939937510582097494459%Q.

Definition INITIALIZE_RESOLUTION : float64 :=
  Eval vm_compute in F64.of_const (2 * math_Pi * 6378137 / 256)%Q.

Definition ORIGIN_SHIFT : float64 :=
  Eval vm_compute in F64.of_const (2 * math_Pi * 6378137 / 2)%Q.

Section Projector.
Context `{GoLib}.

Definition pixelsToMeters (px py : float64) (zoom : Z) : float64 * float64 :=
  let res := F64.div INITIALIZE_RESOLUTION (math_Pow (F64.of_int 2) (F64.of_int zoom)) in
  let mx := F64.sub (F64.mul px res) ORIGIN_SHIFT in
  let my := F64.neg (F64.sub (F64.mul py res) ORIGIN_SHIFT) in
  (mx, my).

Definition meterToLngLat (mx my : float64) : float64 * float64 :=
  let lon := F64.mul (F64.div mx ORIGIN_SHIFT) (F64.of_int 180) in
  let lat := F64.mul (F64.div my ORIGIN_SHIFT) (F64.of_int 180) in
  let lat :=
    F64.mul (F64.of_const (180 / math_Pi)%Q)
      (F64.sub
         (F64.mul (F64.of_int 2)
            (math_Atan
               (math_Exp (F64.div (F64.mul lat (F64.of_const math_Pi)) (F64.of_int 180)))))
         (F64.of_const (math_Pi / 2)%Q)) in
  (lon, lat).

Definition tileBound (tx ty : Z) (zoom : Z) : Box :=
  let tileSize := F64.of_int 256 in
  let '(x, y) :=
    pixelsToMeters (F64.mul (F64.of_int tx) tileSize) (F64.mul (F64.of_int ty) tileSize) zoom in
  let '(x0, y0) := meterToLngLat x y in
  let '(x_, y_) :=
    pixelsToMeters (F64.mul (F64.of_int (wrap 64 (tx + 1))) tileSize)
                   (F64.mul (F64.of_int (wrap 64 (ty + 1))) tileSize) zoom in
  let '(x1, y1) := meterToLngLat x_ y_ in
  mkBox x0 y1 x1 y0.

End Projector.

(** ** The repository scanner and the catalogue *)

Definition listTables (sqlDb : path) : M (list string) :=
  ts <- db_tables sqlDb ;;
  ret (List.filter (fun tableName => (length (strings_Split tableName "_"%char) =? 3)%nat)
         (map t_name ts)).

Definition listSubDir (dir : path) : M (list path) :=
  dirs <- os_ReadDir dir ;;
  ret (map (fun d => dir ++ [de_Name d])
         (List.filter (fun d => de_IsDir d && is_zoom_letter (de_Name d)) dirs)).

Definition listAllFile (dir : path) : M (list path) :=
  dirs <- os_ReadDir dir ;;
  ret (map (fun d => dir ++ [de_Name d])
         (List.filter (fun d => negb (de_IsDir d) && strings_HasSuffix (de_Name d) ".s") dirs)).

(** [json.MarshalIndent] of a descriptor: the length and the content of
    the text; the encoder rejects a NaN or an infinity. *)
Definition json_MarshalIndent `{GoLib} (repo : Repository) : result (Z * body) :=
  if F64.is_finite (Lng repo) && F64.is_finite (Lat repo) && F64.is_finite (Size repo)
  then Ok (json_len repo, Json repo)
  else Err (JsonError "json: unsupported value").

(** [os.Open]: the path must exist. *)
Definition os_Open (p : path) : M path :=
  fun w =>
    match files w !! p with
    | Some _ => (Ok p, w)
    | None => (Err (PathError "open" p (missing_errno (files w) p)), w)
    end.

(** [json.NewDecoder(file).Decode(&repo)] *)
Definition json_Decode (file : path) : M Repository :=
  b <- os_ReadFile file ;;
  match b with
  | Json r => ret r
  | _ => fail (JsonError "invalid character")
  end.

(** [fmt.Errorf(msg + ": %w", err)] on the error of [m]. *)
Definition wrapping {A} (msg : string) (m : M A) : M A :=
  fun w =>
    match m w with
    | (Err e, w') => (Err (Wrapf msg e), w')
    | r => r
    end.

Definition lift {A} (r : result A) : M A := fun w => (r, w).

Definition sidecar (baseDir : path) (name : string) : path :=
  filepath_Join baseDir [name; "repository.json"].

Definition readRepositoryInfo (baseDir : path) (entry : DirEntry) : M Repository :=
  let fullPath := sidecar baseDir (de_Name entry) in
  file <- wrapping "failed to open repository.json" (os_Open fullPath) ;;
  wrapping "failed to parse repository.json" (json_Decode file).

(** The descriptor of a directory that could not be analysed. *)
Definition placeholder (name : string) : Repository :=
  mkRepository name (F64.of_int 113) (F64.of_int 40) 10 F64.zero name false.

Definition half : float64 := Eval vm_compute in F64.of_const 0.5%Q.

Section Scanner.
Context `{GoLib}.

(** The loop over the tables of one shard. *)
Fixpoint calExtend_tables (db : path) (tableNames : list string) (box : Box) : M Box :=
  match tableNames with
  | [] => ret box
  | tableName :: rest =>
      ext <- query_extent db tableName ;;
      let '(tileXMin, tileXMax, tileYMin, tileYMax) := ext in
      let zoom := wrap 32 (byte0 tableName - 65) in
      let minTile := tileBound tileXMin tileYMin zoom in
      let maxTile := tileBound tileXMax tileYMax zoom in
      calExtend_tables db rest (extend (extend box minTile) maxTile)
  end.

Definition calExtend (sFilePath : path) : M Box :=
  db <- sql_Open "sqlite3" sFilePath ;;
  tableNames <- listTables db ;;
  calExtend_tables db tableNames NewBox.

(** The loop over the shard files of one zoom directory. *)
Fixpoint scan_files (files : list path) (box : Box) (fileSize : float64)
  : M (Box * float64) :=
  match files with
  | [] => ret (box, fileSize)
  | file :: rest =>
      r <- attempt (calExtend file) ;;
      match r with
      | Err _ => scan_files rest box fileSize
      | Ok box1 =>
          let box := extend box box1 in
          info <- attempt (os_Stat file) ;;
          match info with
          | Err _ => scan_files rest box fileSize
          | Ok info => scan_files rest box (F64.add fileSize (F64.of_int (fi_Size info)))
          end
      end
  end.

(** The loop over the zoom directories. *)
Fixpoint scan_subdirs (subdirs : list path) (box : Box) (fileSize : float64)
  : M (Box * float64) :=
  match subdirs with
  | [] => ret (box, fileSize)
  | sub :: rest =>
      files <- listAllFile sub ;;
      acc <- scan_files files box fileSize ;;
      scan_subdirs rest (fst acc) (snd acc)
  end.

Definition analysisRepository (baseDir : path) (entry : DirEntry) : M Repository :=
  let repo := placeholder (de_Name entry) in
  subdirs <- listSubDir (filepath_Join baseDir [de_Name entry]) ;;
  acc <- scan_subdirs subdirs NewBox F64.zero ;;
  let '(box, fileSize) := acc in
  let fullPath := sidecar baseDir (de_Name entry) in
  let repo :=
    mkRepository (Name repo)
      (F64.mul half (F64.add (minx box) (maxx box)))
      (F64.mul half (F64.add (miny box) (maxy box)))
      14 fileSize (Url repo) true in
  jsonData <- wrapping "failed to marshal repository" (lift (json_MarshalIndent repo)) ;;
  file <- wrapping "failed to create repository.json" (os_Create fullPath) ;;
  _ <- wrapping "failed to write repository.json"
         (file_Write fullPath (fst jsonData) (snd jsonData)) ;;
  ret repo.

(** The loop of [ListRepositories] over the entries of the root. *)
Fixpoint list_entries (baseDir : path) (dirs : list DirEntry)
    (repositories : list Repository) : M (list Repository) :=
  match dirs with
  | [] => ret repositories
  | dir :: rest =>
      if de_IsDir dir then
        cached <- attempt (readRepositoryInfo baseDir dir) ;;
        match cached with
        | Ok repo => list_entries baseDir rest (repositories ++ [repo])
        | Err _ =>
            scanned <- attempt (analysisRepository baseDir dir) ;;
            match scanned with
            | Err _ =>
                list_entries baseDir rest (repositories ++ [placeholder (de_Name dir)])
            | Ok repo => list_entries baseDir rest (repositories ++ [repo])
            end
        end
      else list_entries baseDir rest repositories
  end.

Definition ListRepositories (baseDir : path) : M (list Repository) :=
  dirs <- os_ReadDir baseDir ;;
  list_entries baseDir dirs [].

End Scanner.

(** ** [NewRepository] *)

(** [os.MkdirAll(path, 0755)] on the path [rev rp]: an existing directory
    is left alone, a file in the way is an error, and a missing directory
    is made after its parents, in a parent that must be writable.  The
    empty path stands for the directory in which the first component is
    resolved. *)
Fixpoint os_MkdirAll_rev (rp : list string) : M unit :=
  fun w =>
    match files w !! rev rp with
    | Some (Dir _ _ _) => (Ok tt, w)
    | Some (File _ _) => (Err (PathError "mkdir" (rev rp) ENOTDIR), w)
    | None =>
        match rp with
        | [] => (Err (PathError "mkdir" [] ENOENT), w)
        | n :: rparent =>
            match os_MkdirAll_rev rparent w with
            | (Err e, w1) => (Err e, w1)
            | (Ok _, w1) =>
                match files w1 !! rev rparent with
                | Some (Dir r true names) =>
                    (Ok tt,
                     {| files := <[rev rp := Dir true true []]>
                                   (<[rev rparent := Dir r true (add_name n names)]> (files w1));
                        sql_log := sql_log w1 |})
                | Some (Dir _ false _) => (Err (PathError "mkdir" (rev rp) EACCES), w1)
                | Some (File _ _) => (Err (PathError "mkdir" (rev rp) ENOTDIR), w1)
                | None => (Err (PathError "mkdir" (rev rp) ENOENT), w1)
                end
            end
        end
    end.

Definition os_MkdirAll (p : path) : M unit := os_MkdirAll_rev (rev p).

Definition not_a_directory (p : path) : error :=
  Errorf (path_str p +:+ " is not a directory").

(** What a call gives back: the values it returns, or a run-time panic. *)
Inductive outcome (A : Type) :=
  | Returns (a : A)
  | Panics (msg : string).
Arguments Returns {A} a.
Arguments Panics {A} msg.

Definition nil_dereference : string :=
  "runtime error: invalid memory address or nil pointer dereference".

(** [NewRepository] returns a repository and an error, and in one case
    both.  When [os.Stat] fails otherwise than by a missing file, [info]
    is nil and [info.IsDir()] panics. *)
Definition NewRepository (dir : path) (created : bool)
  : world -> outcome (option SRepository * option error) * world :=
  fun w =>
    match os_Stat dir w with
    | (Ok info, w1) =>
        if fi_IsDir info then (Returns (Some {| dir := dir |}, None), w1)
        else (Returns (None, Some (not_a_directory dir)), w1)
    | (Err e, w1) =>
        if os_IsNotExist (@Err FileInfo e) then
          if created then
            match os_MkdirAll dir w1 with
            | (Err e', w2) => (Returns (None, Some e'), w2)
            | (Ok _, w2) => (Returns (Some {| dir := dir |}, Some (not_exist dir)), w2)
            end
          else (Returns (Some {| dir := dir |}, Some (not_exist dir)), w1)
        else (Panics nil_dereference, w1)
    end.

(** ** Notions used to state the properties *)

(** A coordinate of real data: a binary64 number that is neither a NaN
    nor an infinity. *)
Definition real_coord (x : float64) : bool := F64.valid x && F64.is_finite x.

Definition real_box (b : Box) : bool :=
  real_coord (minx b) && real_coord (miny b) && real_coord (maxx b) && real_coord (maxy b).

(** The outcome of [m] over the file system [fs]. *)
Definition run {A : Type} (fs : gmap path node) (m : M A) : result A :=
  fst (m (mkWorld fs [])).

(** [m] only reads the file system: its outcome depends on the files
    alone, and it leaves them as they are (it may log database handles). *)
Definition reads {A : Type} (m : M A) : Prop :=
  forall w, exists l, m w = (run (files w) m, mkWorld (files w) (sql_log w ++ l)).

Definition is_ok {A : Type} (r : result A) : bool :=
  match r with
  | Ok _ => true
  | Err _ => false
  end.

Definition size_of (fs : gmap path node) (f : path) : Z :=
  match fs !! f with
  | Some (File size _) => size
  | _ => 0
  end.

(** The shard files of the zoom directories, in scan order; an error when
    one of the directories cannot be listed. *)
Fixpoint all_files (fs : gmap path node) (subdirs : list path) : result (list path) :=
  match subdirs with
  | [] => Ok []
  | sub :: rest =>
      match run fs (listAllFile sub) with
      | Err e => Err e
      | Ok fl =>
          match all_files fs rest with
          | Ok r => Ok (fl ++ r)
          | Err e => Err e
          end
      end
  end.

Definition shards_of (fs : gmap path node) (repoDir : path) : result (list path) :=
  match run fs (listSubDir repoDir) with
  | Ok subdirs => all_files fs subdirs
  | Err e => Err e
  end.

Definition total_size (fs : gmap path node) (shards : list path) (size : float64) : float64 :=
  fold_left (fun s f => F64.add s (F64.of_int (size_of fs f))) shards size.

Definition count_dirs (dirs : list DirEntry) : nat :=
  length (List.filter de_IsDir dirs).

Section ScanNotions.
Context `{GoLib}.

(** The shards whose extent the scan could compute. *)
Definition accumulated (fs : gmap path node) (shards : list path) : list path :=
  List.filter (fun f => is_ok (run fs (calExtend f))) shards.

Definition union_box (fs : gmap path node) (shards : list path) (box : Box) : Box :=
  fold_left
    (fun b f =>
       match run fs (calExtend f) with
       | Ok b1 => extend b b1
       | Err _ => b
       end)
    shards box.

(** The last steps of [analysisRepository]: encode the descriptor, create
    the sidecar and write it. *)
Definition write_sidecar (fullPath : path) (repo : Repository) : M Repository :=
  jsonData <- wrapping "failed to marshal repository" (lift (json_MarshalIndent repo)) ;;
  file <- wrapping "failed to create repository.json" (os_Create fullPath) ;;
  _ <- wrapping "failed to write repository.json"
         (file_Write fullPath (fst jsonData) (snd jsonData)) ;;
  ret repo.

(** The descriptor [analysisRepository] builds from the shards of a scan. *)
Definition described (fs : gmap path node) (name : string) (shards : list path) : Repository :=
  let acc := accumulated fs shards in
  let box := union_box fs acc NewBox in
  mkRepository name
    (F64.mul half (F64.add (minx box) (maxx box)))
    (F64.mul half (F64.add (miny box) (maxy box)))
    14 (total_size fs acc F64.zero) name true.

End ScanNotions.

(** Worlds of the scanner: an empty repository directory, and a repository
    whose zoom directory holds a shard and a file that is no database. *)
Definition world_new : world :=
  mkWorld
    (list_to_map
       [ (["root"], Dir true true ["new"]);
         (["root"; "new"], Dir true true []) ])
    [].

Definition world_corrupt : world :=
  mkWorld
    (list_to_map
       [ (["root"], Dir true true ["city"]);
         (["root"; "city"], Dir true true ["K"]);
         (["root"; "city"; "K"], Dir true true ["K_1_0.s"; "bad.s"]);
         (["root"; "city"; "K"; "K_1_0.s"],
          File 8192 (Sqlite [mkTable "K_4_1" [mkRow 428 300 70 [x89; x50; x4e; x47]]]));
         (["root"; "city"; "K"; "bad.s"], File 77 Opaque) ])
    [].


(** ** Worlds used to evaluate the program *)

(** A library instance for evaluation: [math.Pow] on base 2 is the exact
    power of two; [math.Exp] and [math.Atan] return their argument, which
    is enough where a result does not depend on them. *)
Definition eval_lib : GoLib :=
  {| math_Pow := fun _ y =>
       match y with
       | S754_zero _ => F64.of_int 1
       | S754_finite s m e =>
           binary_normalize F64.prec F64.emax 1
             (if s then - Z.shiftl (Z.pos m) e else Z.shiftl (Z.pos m) e) false
       | _ => y
       end;
     math_Exp := fun x => x;
     math_Atan := fun x => x;
     json_len := fun _ => 160;
     write_fault := fun _ _ => None |}.

(** The same library on a volume that is full: a write stores nothing. *)
Definition full_lib : GoLib :=
  {| math_Pow := @math_Pow eval_lib;
     math_Exp := @math_Exp eval_lib;
     math_Atan := @math_Atan eval_lib;
     json_len := @json_len eval_lib;
     write_fault := fun _ _ => Some 0 |}.

(** One repository [root/city] with the shard of tile (300, 70) at zoom 10. *)
Definition tile_300_70 : row := mkRow 428 300 70 [x89; x50; x4e; x47].

Definition world_city : world :=
  mkWorld
    (list_to_map
       [ (["root"], Dir true true ["city"]);
         (["root"; "city"], Dir true true ["K"]);
         (["root"; "city"; "K"], Dir true true ["K_1_0.s"]);
         (["root"; "city"; "K"; "K_1_0.s"],
          File 8192 (Sqlite [mkTable "K_4_1" [tile_300_70]])) ])
    [].

Definition city : SRepository := {| dir := ["root"; "city"] |}.

(** ** Notions and worlds of the further properties *)

(** The descriptor a valid sidecar holds for a directory entry. *)
Definition cached_descriptor (fs : gmap path node) (baseDir : path) (d : DirEntry)
  : option Repository :=
  if de_IsDir d then
    match fs !! sidecar baseDir (de_Name d) with
    | Some (File _ (Json r)) => Some r
    | _ => None
    end
  else None.

(** The repository of [world_city] after it was analysed, beside a file. *)
Definition city_descriptor : Repository :=
  mkRepository "city" (F64.of_int 113) (F64.of_int 40) 14 (F64.of_int 8192) "city" true.

Definition world_cached : world :=
  mkWorld
    (list_to_map
       [ (["root"], Dir true true ["city"; "notes.txt"]);
         (["root"; "notes.txt"], File 12 Opaque);
         (["root"; "city"], Dir true true ["K"; "repository.json"]);
         (["root"; "city"; "repository.json"], File 160 (Json city_descriptor));
         (["root"; "city"; "K"], Dir true true ["K_1_0.s"]);
         (["root"; "city"; "K"; "K_1_0.s"],
          File 8192 (Sqlite [mkTable "K_4_1" [tile_300_70]])) ])
    [].

(** Whether the character [c] occurs in [s]. *)
Fixpoint has_char (c : ascii) (s : string) : bool :=
  match s with
  | EmptyString => false
  | String a s' => Ascii.eqb a c || has_char c s'
  end.

(** A repository whose zoom directory K is a regular file. *)
Definition world_blocked : world :=
  mkWorld
    (list_to_map
       [ (["root"], Dir true true ["city"]);
         (["root"; "city"], Dir true true ["K"]);
         (["root"; "city"; "K"], File 5 Opaque) ])
    [].

(** Two repositories: the directory of the first cannot be listed, the
    second holds a shard. *)
Definition world_siblings : world :=
  mkWorld
    (list_to_map
       [ (["root"], Dir true true ["closed"; "town"]);
         (["root"; "closed"], Dir false true []);
         (["root"; "town"], Dir true true ["K"]);
         (["root"; "town"; "K"], Dir true true ["K_1_0.s"]);
         (["root"; "town"; "K"; "K_1_0.s"],
          File 8192 (Sqlite [mkTable "K_4_1" [tile_300_70]])) ])
    [].

Section CatalogueNotions.
Context `{GoLib}.

(** The descriptor the catalogue gives one directory: that of its
    sidecar, else that of its scan, else the placeholder. *)
Definition entry_descriptor (baseDir : path) (d : DirEntry) (w : world)
  : Repository * world :=
  match readRepositoryInfo baseDir d w with
  | (Ok repo, w1) => (repo, w1)
  | (Err _, w1) =>
      match analysisRepository baseDir d w1 with
      | (Ok repo, w2) => (repo, w2)
      | (Err _, w2) => (placeholder (de_Name d), w2)
      end
  end.

(** The descriptors of the directories among the entries, each made in
    the world the entries before it left. *)
Fixpoint all_descriptors (baseDir : path) (dirs : list DirEntry) (w : world)
  : list Repository * world :=
  match dirs with
  | [] => ([], w)
  | d :: rest =>
      if de_IsDir d then
        let '(repo, w1) := entry_descriptor baseDir d w in
        let '(repos, w2) := all_descriptors baseDir rest w1 in
        (repo :: repos, w2)
      else all_descriptors baseDir rest w
  end.

End CatalogueNotions.

(** * Properties *)

(** ** Machine integers *)

Lemma wrap_small bits v : 0 < bits -> in_int bits v -> wrap bits v = v.
Proof.
  unfold in_int, wrap. intros Hb Hv.
  assert (E : 2 ^ bits = 2 * 2 ^ (bits - 1)).
  { replace bits with (Z.succ (bits - 1)) at 1 by lia. rewrite Z.pow_succ_r; lia. }
  rewrite Z.mod_small; lia.
Qed.

Lemma index_eq x y : index x y = Z.rem x 64 + 64 * Z.rem y 64.
Proof.
  unfold index.
  assert (Hx : -64 < Z.rem x 64 < 64).
  { pose proof (Z.rem_bound_abs x 64). lia. }
  assert (Hy : -64 < Z.rem y 64 < 64).
  { pose proof (Z.rem_bound_abs y 64). lia. }
  rewrite (wrap_small 64 (64 * _));
    [| lia | unfold in_int; change (2 ^ (64 - 1)) with 9223372036854775808; lia].
  rewrite wrap_small;
    [reflexivity | lia | unfold in_int; change (2 ^ (64 - 1)) with 9223372036854775808; lia].
Qed.

(** ** The tile store *)

(** C3 (Scenario A): the request x=300, y=70, zoom=10 resolves to the
    subdirectory "K", the shard file "K_1_0.s", the table "K_4_1" and the
    row 428; the shard is looked up under the repository directory at
    K/K_1_0.s. *)
Theorem resolve_scenario_A :
  address 300 70 10 = ("K", "K_1_0.s", "K_4_1", 428)
  /\ forall f, filePath f 300 70 10 = dir f ++ ["K"; "K_1_0.s"].
Proof.
  split; [vm_compute; reflexivity | intros f; reflexivity].
Qed.

(** The same request served from a populated repository: the bytes of row
    428 of table K_4_1 come back, through one database handle. *)
Example fetch_scenario_A :
  GetXYZ city 300 70 10 world_city
  = (Ok (Data tile_300_70),
     mkWorld (files world_city)
       [SqlOpen ["root"; "city"; "K"; "K_1_0.s"]; SqlClose ["root"; "city"; "K"; "K_1_0.s"]]).
Proof. vm_compute. reflexivity. Qed.

(** C4 (row bijection): for x, y >= 0 the row index is within [0, 4095],
    and two tiles of one 64x64 block whose pairs (x mod 64, y mod 64)
    differ get different rows. *)
Theorem row_index_range_injective :
  (forall x y, 0 <= x -> 0 <= y -> 0 <= index x y <= 4095)
  /\ (forall x1 y1 x2 y2,
        0 <= x1 -> 0 <= y1 -> 0 <= x2 -> 0 <= y2 ->
        Z.quot x1 64 = Z.quot x2 64 -> Z.quot y1 64 = Z.quot y2 64 ->
        (Z.rem x1 64, Z.rem y1 64) <> (Z.rem x2 64, Z.rem y2 64) ->
        index x1 y1 <> index x2 y2).
Proof.
  split.
  - intros x y Hx Hy. rewrite index_eq.
    pose proof (Z.rem_bound_pos x 64 Hx). pose proof (Z.rem_bound_pos y 64 Hy). lia.
  - intros x1 y1 x2 y2 Hx1 Hy1 Hx2 Hy2 _ _ Hne. rewrite !index_eq. intros Heq.
    pose proof (Z.rem_bound_pos x1 64 Hx1). pose proof (Z.rem_bound_pos y1 64 Hy1).
    pose proof (Z.rem_bound_pos x2 64 Hx2). pose proof (Z.rem_bound_pos y2 64 Hy2).
    apply Hne. f_equal; lia.
Qed.

Lemma row_index_range_injective_witness :
  0 <= index 300 70 <= 4095 /\ index 300 70 <> index 301 70.
Proof.
  destruct row_index_range_injective as [Hrange Hinj]. split.
  - apply Hrange; lia.
  - apply Hinj; try lia; try reflexivity. vm_compute. discriminate.
Defined.

Lemma os_Stat_absent p w :
  files w !! p = None ->
  os_Stat p w
  = (Err (PathError "stat" p (if file_above (files w) [] p then ENOTDIR else ENOENT)), w).
Proof.
  intros Hp. unfold os_Stat. rewrite Hp. reflexivity.
Qed.

(** Preparing and running the tile query leaves the world as it is. *)
Lemma db_prepare_silent db name w :
  db_prepare db name w = (run (files w) (db_prepare db name), w).
Proof.
  unfold run, db_prepare, bind, db_connect. cbn [files].
  destruct (files w !! db) as [[? ? ? | ? b] |]; try reflexivity.
  destruct (sql_identifier name); [| reflexivity].
  destruct b as [ts | ? |]; try reflexivity.
  destruct (find_table name ts); reflexivity.
Qed.

Lemma query_Data_silent db name i w :
  query_Data db name i w = (run (files w) (query_Data db name i), w).
Proof.
  unfold run, query_Data, bind. rewrite (db_prepare_silent db name (mkWorld _ _)).
  rewrite db_prepare_silent. cbn [files].
  destruct (run (files w) (db_prepare db name)); reflexivity.
Qed.

(** The query of a table that the statement names and the database holds. *)
Lemma query_Data_found fs db name i size ts t :
  fs !! db = Some (File size (Sqlite ts)) ->
  sql_identifier name = true ->
  find_table name ts = Some t ->
  run fs (query_Data db name i) = Ok (map Data (filter (fun r => ID r = i) (t_rows t))).
Proof.
  intros Hf Hid Ht. unfold run, query_Data, db_prepare, bind, db_connect. cbn [files].
  rewrite Hf. cbn. rewrite Hid, Ht. reflexivity.
Qed.

(** Once [os.Stat] has not reported the shard file missing, the fetch
    opens a handle, runs the query and closes the handle. *)
Lemma GetXYZ_opened f x y z w :
  files w !! filePath f x y z <> None
  \/ file_above (files w) [] (filePath f x y z) = true ->
  GetXYZ f x y z w
  = (match run (files w) (query_Data (filePath f x y z) (tableName x y z) (index x y)) with
     | Ok (data :: _) => Ok data
     | Ok [] => Err (not_exist (filePath f x y z))
     | Err e => Err e
     end,
     mkWorld (files w)
       (sql_log w ++ [SqlOpen (filePath f x y z); SqlClose (filePath f x y z)])).
Proof.
  intros Hp.
  assert (Hst : os_IsNotExist (fst (os_Stat (filePath f x y z) w)) = false
                /\ snd (os_Stat (filePath f x y z) w) = w).
  { unfold os_Stat.
    destruct (files w !! filePath f x y z) as [[? ? ? | ? ?] |]; try (split; reflexivity).
    destruct Hp as [Hp | Hp]; [congruence |]. unfold missing_errno. rewrite Hp.
    split; reflexivity. }
  unfold GetXYZ, bind, attempt.
  destruct (os_Stat (filePath f x y z) w) as [st w0]. cbn [fst snd] in Hst.
  destruct Hst as [Hst ->]. rewrite Hst.
  unfold sql_Open, deferring. cbn [String.eqb Ascii.eqb Bool.eqb].
  rewrite query_Data_silent. cbn [files sql_log log_event].
  unfold db_Close, log_event.
  destruct (run (files w) (query_Data _ _ _)) as [[| data rest] | e];
    cbn [files sql_log ret fail]; rewrite <- app_assoc; reflexivity.
Qed.

(** C5 fails when the shard file is absent because its directory is a
    regular file: [os.Stat] answers ENOTDIR, which [os.IsNotExist] does
    not accept, and the fetch goes on to open a database handle and
    returns the driver's error. *)
Lemma shard_under_a_file_is_opened :
  files world_blocked !! filePath city 300 70 10 = None
  /\ GetXYZ city 300 70 10 world_blocked
     = (Err (SqlError "unable to open database file"),
        mkWorld (files world_blocked)
          [SqlOpen ["root"; "city"; "K"; "K_1_0.s"]; SqlClose ["root"; "city"; "K"; "K_1_0.s"]]).
Proof. vm_compute. split; reflexivity. Qed.

(** C5 (Scenario B), as the code has it: when the shard file of a tile is
    absent and no parent on its path is a regular file, so that [os.Stat]
    reports a missing file, the fetch fails with the not-exist error and
    the world is left as it was: the log of database handles gains no
    entry, so nothing was opened.  When a parent is a regular file the
    fetch opens a handle, fails in the driver and closes the handle. *)
Theorem missing_shard_not_found f x y z w :
  files w !! filePath f x y z = None ->
  (file_above (files w) [] (filePath f x y z) = false ->
   GetXYZ f x y z w = (Err (not_exist (filePath f x y z)), w)
   /\ sql_log (snd (GetXYZ f x y z w)) = sql_log w)
  /\ (file_above (files w) [] (filePath f x y z) = true ->
      GetXYZ f x y z w
      = (Err (SqlError "unable to open database file"),
         mkWorld (files w)
           (sql_log w ++ [SqlOpen (filePath f x y z); SqlClose (filePath f x y z)]))).
Proof.
  intros Hnone. split; intros Habove.
  - assert (E : GetXYZ f x y z w = (Err (not_exist (filePath f x y z)), w)).
    { unfold GetXYZ, bind, attempt. rewrite (os_Stat_absent _ _ Hnone), Habove. reflexivity. }
    rewrite E. split; reflexivity.
  - unfold GetXYZ, bind, attempt. rewrite (os_Stat_absent _ _ Hnone), Habove.
    cbn [os_IsNotExist].
    unfold sql_Open, deferring, query_Data, db_prepare, bind, db_connect, db_Close, log_event.
    cbn [String.eqb Ascii.eqb Bool.eqb files sql_log]. rewrite Hnone.
    cbn [files sql_log]. rewrite <- app_assoc. reflexivity.
Qed.

Lemma missing_shard_not_found_witness :
  (GetXYZ city 900 70 10 world_city
   = (Err (Errorf "root/city/K/K_3_0.s not exist"), world_city)
   /\ sql_log (snd (GetXYZ city 900 70 10 world_city)) = [])
  /\ GetXYZ city 900 70 10 world_blocked
     = (Err (SqlError "unable to open database file"),
        mkWorld (files world_blocked)
          ([] ++ [SqlOpen (filePath city 900 70 10); SqlClose (filePath city 900 70 10)])).
Proof.
  split.
  - apply (missing_shard_not_found city 900 70 10 world_city); vm_compute; reflexivity.
  - apply (missing_shard_not_found city 900 70 10 world_blocked); vm_compute; reflexivity.
Defined.

(** C6 (zoom clamp): below zoom 9 a request resolves to the subdirectory,
    shard file, table and row of zoom 9, and the fetch is the same. *)
Theorem zoom_clamp x y z :
  z < 9 ->
  address x y z = address x y 9
  /\ forall f w, GetXYZ f x y z w = GetXYZ f x y 9 w.
Proof.
  intros Hz.
  assert (Hvz : vz z = vz 9) by (unfold vz; lia).
  assert (Hl : zoomLetter z = zoomLetter 9) by (unfold zoomLetter; rewrite Hvz; reflexivity).
  assert (Ha : address x y z = address x y 9).
  { unfold address, subDir, dbFile, tableName. rewrite Hl. reflexivity. }
  split; [exact Ha |].
  intros f w. unfold GetXYZ, filePath, subDir, dbFile, tableName. rewrite Hl. reflexivity.
Qed.

Lemma zoom_clamp_witness :
  address 300 70 3 = address 300 70 9
  /\ GetXYZ city 300 70 3 world_city = GetXYZ city 300 70 9 world_city.
Proof.
  split.
  - apply (zoom_clamp 300 70 3). lia.
  - apply (zoom_clamp 300 70 3). lia.
Defined.

Lemma no_row_no_data (rows : list row) (i : Z) :
  Forall (fun r => ID r <> i) rows ->
  map Data (filter (fun r => ID r = i) rows) = [].
Proof.
  induction 1 as [| r rows Hr _ IH]; [reflexivity |].
  rewrite filter_cons_False by exact Hr. exact IH.
Qed.




(** ** float64 and bounding boxes *)

Lemma compare_refl (x : float64) : x <> S754_nan -> SFcompare x x = Some Eq.
Proof.
  destruct x as [s | s | | s m e]; intros Hx; try congruence; destruct s; cbn;
    rewrite ?Z.compare_refl, ?Pos.compare_cont_refl; reflexivity.
Qed.

Lemma fmin_idem (x : float64) : F64.fmin x x = x.
Proof.
  destruct x as [s | s | | s m e]; try (destruct s; reflexivity); try reflexivity.
  unfold F64.fmin, F64.neb, F64.ltb, SFeqb, SFltb.
  rewrite compare_refl by discriminate. destruct s; reflexivity.
Qed.

Lemma fmax_idem (x : float64) : F64.fmax x x = x.
Proof.
  destruct x as [s | s | | s m e]; try (destruct s; reflexivity); try reflexivity.
  unfold F64.fmax, F64.neb, F64.ltb, SFeqb, SFltb.
  rewrite compare_refl by discriminate. destruct s; reflexivity.
Qed.

Lemma digits2_pos_bound (m : positive) : Z.pos m < 2 ^ Z.pos (digits2_pos m).
Proof.
  induction m as [m IH | m IH |]; cbn [digits2_pos].
  - rewrite Pos2Z.inj_succ, Z.pow_succ_r by lia. lia.
  - rewrite Pos2Z.inj_succ, Z.pow_succ_r by lia. lia.
  - reflexivity.
Qed.

Lemma bounded_le_max m e :
  bounded F64.prec F64.emax m e = true ->
  e < 971 \/ (e = 971 /\ Z.pos m <= 9007199254740991).
Proof.
  unfold bounded, canonical_mantissa, fexp, emin, F64.prec, F64.emax.
  intros Hb. apply andb_prop in Hb as [Hc He].
  apply Z.eqb_eq in Hc. apply Z.leb_le in He.
  destruct (Z.eq_dec e 971) as [-> | Hne]; [right | left; lia].
  split; [reflexivity |].
  assert (Hd : Z.pos (digits2_pos m) = 53) by lia.
  pose proof (digits2_pos_bound m) as Hm. rewrite Hd in Hm.
  change (2 ^ 53) with 9007199254740992 in Hm. lia.
Qed.

Lemma compare_pos_finite m1 e1 m2 e2 :
  SFcompare (S754_finite false m1 e1) (S754_finite false m2 e2)
  = Some match e1 ?= e2 with
         | Lt => Lt
         | Gt => Gt
         | Eq => (m1 ?= m2)%positive
         end.
Proof. reflexivity. Qed.

Lemma MaxFloat64_eq : F64.MaxFloat64 = S754_finite false 9007199254740991 971.
Proof. vm_compute. reflexivity. Qed.

Lemma compare_max m e :
  bounded F64.prec F64.emax m e = true ->
  SFcompare (S754_finite false m e) F64.MaxFloat64 = Some Lt
  \/ S754_finite false m e = F64.MaxFloat64.
Proof.
  intros Hb. rewrite MaxFloat64_eq, compare_pos_finite.
  destruct (bounded_le_max m e Hb) as [He | [-> Hm]].
  - left. apply Z.compare_lt_iff in He. rewrite He. reflexivity.
  - rewrite Z.compare_refl.
    destruct (Pos.compare_spec m 9007199254740991) as [-> | Hlt | Hgt].
    + right. reflexivity.
    + left. reflexivity.
    + exfalso. apply Pos2Z.pos_lt_pos in Hgt. apply (Z.lt_irrefl (Z.pos m)).
      eapply Z.le_lt_trans; eassumption.
Qed.

Lemma compare_neg_finite m1 e1 m2 e2 :
  SFcompare (S754_finite true m1 e1) (S754_finite true m2 e2)
  = Some match e1 ?= e2 with
         | Lt => Gt
         | Gt => Lt
         | Eq => CompOpp (m1 ?= m2)%positive
         end.
Proof. reflexivity. Qed.

Lemma compare_min m e :
  bounded F64.prec F64.emax m e = true ->
  SFcompare (F64.neg F64.MaxFloat64) (S754_finite true m e) = Some Lt
  \/ S754_finite true m e = F64.neg F64.MaxFloat64.
Proof.
  intros Hb. rewrite MaxFloat64_eq. cbn [F64.neg SFopp negb]. rewrite compare_neg_finite.
  destruct (bounded_le_max m e Hb) as [He | [-> Hm]].
  - left. apply Z.compare_gt_iff in He. rewrite He. reflexivity.
  - rewrite Z.compare_refl.
    destruct (Pos.compare_spec 9007199254740991 m) as [<- | Hlt | Hgt].
    + right. reflexivity.
    + exfalso. apply Pos2Z.pos_lt_pos in Hlt. apply (Z.lt_irrefl (Z.pos m)).
      eapply Z.le_lt_trans; eassumption.
    + left. reflexivity.
Qed.

Lemma fmin_below x y :
  y <> S754_nan -> SFcompare y x = Some Lt -> F64.fmin x y = y.
Proof.
  intros Hy Hlt. unfold F64.fmin, F64.neb, F64.ltb, SFeqb, SFltb.
  rewrite compare_refl by exact Hy. rewrite Hlt. reflexivity.
Qed.

Lemma fmax_above x y :
  y <> S754_nan -> SFcompare x y = Some Lt -> F64.fmax x y = y.
Proof.
  intros Hy Hlt. unfold F64.fmax, F64.neb, F64.ltb, SFeqb, SFltb.
  rewrite compare_refl by exact Hy. rewrite Hlt. reflexivity.
Qed.

Lemma fmin_MaxFloat64 x : real_coord x = true -> F64.fmin F64.MaxFloat64 x = x.
Proof.
  unfold real_coord. intros Hx. apply andb_prop in Hx as [Hv Hf].
  destruct x as [s | s | | s m e]; try discriminate.
  - apply fmin_below; [discriminate | rewrite MaxFloat64_eq; reflexivity].
  - destruct s.
    + apply fmin_below; [discriminate | rewrite MaxFloat64_eq; reflexivity].
    + destruct (compare_max m e Hv) as [Hlt | Heq].
      * apply fmin_below; [discriminate | exact Hlt].
      * rewrite Heq. apply fmin_idem.
Qed.

Lemma fmax_MinFloat64 x :
  real_coord x = true -> F64.fmax (F64.neg F64.MaxFloat64) x = x.
Proof.
  unfold real_coord. intros Hx. apply andb_prop in Hx as [Hv Hf].
  destruct x as [s | s | | s m e]; try discriminate.
  - apply fmax_above; [discriminate | rewrite MaxFloat64_eq; reflexivity].
  - destruct s.
    + destruct (compare_min m e Hv) as [Hlt | Heq].
      * apply fmax_above; [discriminate | exact Hlt].
      * rewrite Heq. apply fmax_idem.
    + apply fmax_above; [discriminate | rewrite MaxFloat64_eq; reflexivity].
Qed.

(** C8 (box accumulation identity): extending the empty box with a box of
    real data gives that box, and extending any box with itself gives it
    back. *)
Theorem extend_identity_idempotent (B : Box) :
  (real_box B = true -> extend NewBox B = B) /\ extend B B = B.
Proof.
  destruct B as [x0 y0 x1 y1]. split.
  - unfold real_box. cbn [minx miny maxx maxy]. intros Hr.
    apply andb_prop in Hr as [Hr H4]. apply andb_prop in Hr as [Hr H3].
    apply andb_prop in Hr as [H1 H2].
    unfold extend, NewBox. cbn [minx miny maxx maxy].
    rewrite !fmin_MaxFloat64, !fmax_MinFloat64 by assumption. reflexivity.
  - unfold extend. cbn [minx miny maxx maxy].
    rewrite !fmin_idem, !fmax_idem. reflexivity.
Qed.

Lemma extend_identity_idempotent_witness :
  extend NewBox (mkBox (F64.of_int 113) (F64.of_int 39) (F64.of_int 114) (F64.of_int 40))
  = mkBox (F64.of_int 113) (F64.of_int 39) (F64.of_int 114) (F64.of_int 40).
Proof.
  refine (proj1 (extend_identity_idempotent
                   (mkBox (F64.of_int 113) (F64.of_int 39) (F64.of_int 114) (F64.of_int 40)))
            _).
  vm_compute. reflexivity.
Defined.

(** A box with an infinite bound is not real data: the empty box, whose
    bounds are [MaxFloat64], does not give it back. *)
Example extend_infinite_box :
  minx (extend NewBox (mkBox (S754_infinity false) F64.zero F64.zero F64.zero))
  = F64.MaxFloat64.
Proof. vm_compute. reflexivity. Qed.

(** ** The Mercator projector *)

Lemma ORIGIN_SHIFT_eq : ORIGIN_SHIFT = F64.of_const (math_Pi * 6378137)%Q.
Proof. vm_compute. reflexivity. Qed.

Lemma INITIALIZE_RESOLUTION_eq :
  INITIALIZE_RESOLUTION = F64.of_const (2 * math_Pi * 6378137 / 256)%Q.
Proof. vm_compute. reflexivity. Qed.

(** C9: [pixelsToMeters] returns mx = px*res - S and my = -(py*res - S)
    with res = (2*pi*6378137/256)/2^zoom and S = pi*6378137, and
    [meterToLngLat] returns lon = (mx/S)*180 and
    lat = (180/pi)*(2*atan(exp(((my/S)*180)*pi/180)) - pi/2), for every
    input; the operations are those of float64 and the constant
    subexpressions are rounded once. *)
Theorem projector_formulas `{GoLib} (px py mx my : float64) (zoom : Z) :
  let S := F64.of_const (math_Pi * 6378137)%Q in
  let res :=
    F64.div (F64.of_const (2 * math_Pi * 6378137 / 256)%Q)
            (math_Pow (F64.of_int 2) (F64.of_int zoom)) in
  pixelsToMeters px py zoom
  = (F64.sub (F64.mul px res) S, F64.neg (F64.sub (F64.mul py res) S))
  /\ meterToLngLat mx my
     = (F64.mul (F64.div mx S) (F64.of_int 180),
        F64.mul (F64.of_const (180 / math_Pi)%Q)
          (F64.sub
             (F64.mul (F64.of_int 2)
                (math_Atan
                   (math_Exp
                      (F64.div
                         (F64.mul (F64.mul (F64.div my S) (F64.of_int 180))
                                  (F64.of_const math_Pi))
                         (F64.of_int 180)))))
             (F64.of_const (math_Pi / 2)%Q))).
Proof.
  intros S res. subst S res.
  unfold pixelsToMeters, meterToLngLat.
  rewrite <- ORIGIN_SHIFT_eq, <- INITIALIZE_RESOLUTION_eq. split; reflexivity.
Qed.

(** The constants are the same when every operation of the constant
    expression is rounded on its own. *)
Example projector_constants_stepwise :
  ORIGIN_SHIFT = F64.mul (F64.of_const math_Pi) (F64.of_int 6378137)
  /\ INITIALIZE_RESOLUTION
     = F64.div (F64.mul (F64.mul (F64.of_int 2) (F64.of_const math_Pi)) (F64.of_int 6378137))
               (F64.of_int 256)
  /\ F64.of_const (180 / math_Pi)%Q = F64.div (F64.of_int 180) (F64.of_const math_Pi).
Proof. vm_compute. repeat split; reflexivity. Qed.

(** ** The repository scanner *)

(** ** Functions that only read the file system *)

Lemma world_eta (w : world) : w = mkWorld (files w) (sql_log w ++ []).
Proof. destruct w. cbn. rewrite app_nil_r. reflexivity. Qed.

Lemma reads_pure {A : Type} (m : M A) (f : gmap path node -> result A) :
  (forall w, m w = (f (files w), w)) -> reads m.
Proof.
  intros Hm w. exists []. unfold run. rewrite (Hm (mkWorld _ _)), Hm. cbn.
  rewrite <- world_eta. reflexivity.
Qed.

Lemma reads_ret {A : Type} (a : A) : reads (ret a).
Proof. apply (reads_pure _ (fun _ => Ok a)). reflexivity. Qed.

Lemma reads_fail {A : Type} (e : error) : reads (@fail A e).
Proof. apply (reads_pure _ (fun _ => Err e)). reflexivity. Qed.

Lemma reads_run {A : Type} (m : M A) fs l :
  reads m -> fst (m (mkWorld fs l)) = run fs m.
Proof. intros Hm. destruct (Hm (mkWorld fs l)) as [l' E]. rewrite E. reflexivity. Qed.

Lemma reads_files {A : Type} (m : M A) w :
  reads m -> files (snd (m w)) = files w.
Proof. intros Hm. destruct (Hm w) as [l' E]. rewrite E. reflexivity. Qed.

Lemma reads_bind {A B : Type} (m : M A) (k : A -> M B) :
  reads m -> (forall a, reads (k a)) -> reads (bind m k).
Proof.
  intros Hm Hk w. unfold run, bind.
  destruct (Hm w) as [l E]. rewrite E.
  destruct (Hm (mkWorld (files w) [])) as [l0 E0]. rewrite E0. cbn [files sql_log].
  destruct (run (files w) m) as [a | e].
  - destruct (Hk a (mkWorld (files w) (sql_log w ++ l))) as [l1 E1]. rewrite E1.
    cbn [files sql_log]. exists (l ++ l1).
    rewrite (surjective_pairing (k a _)). rewrite (reads_run (k a)) by apply Hk.
    rewrite app_assoc. reflexivity.
  - exists l. reflexivity.
Qed.

Lemma reads_attempt {A : Type} (m : M A) : reads m -> reads (attempt m).
Proof.
  intros Hm w. destruct (Hm w) as [l E]. exists l. unfold run, attempt.
  rewrite E. destruct (Hm (mkWorld (files w) [])) as [l0 E0]. rewrite E0. reflexivity.
Qed.

Lemma run_bind {A B : Type} (m : M A) (k : A -> M B) fs :
  reads m -> (forall a, reads (k a)) ->
  run fs (bind m k) = match run fs m with Ok a => run fs (k a) | Err e => Err e end.
Proof.
  intros Hm Hk. unfold run at 1. unfold bind.
  destruct (Hm (mkWorld fs [])) as [l E]. rewrite E. cbn [files sql_log].
  destruct (run fs m) as [a | e]; [| reflexivity].
  apply reads_run, Hk.
Qed.

Lemma reads_os_ReadDir p : reads (os_ReadDir p).
Proof.
  apply (reads_pure _ (fun fs => fst (os_ReadDir p (mkWorld fs [])))).
  intros w. unfold os_ReadDir. cbn [files].
  destruct (files w !! p) as [[[] ? ? | ? ?] |]; reflexivity.
Qed.

Lemma reads_os_Stat p : reads (os_Stat p).
Proof.
  apply (reads_pure _ (fun fs => fst (os_Stat p (mkWorld fs [])))).
  intros w. unfold os_Stat. cbn [files].
  destruct (files w !! p) as [[? ? ? | ? ?] |]; reflexivity.
Qed.

Lemma reads_db_tables p : reads (db_tables p).
Proof.
  apply (reads_pure _ (fun fs => fst (db_tables p (mkWorld fs [])))).
  intros w. unfold db_tables. cbn [files].
  destruct (files w !! p) as [[? ? ? | ? []] |]; reflexivity.
Qed.

Lemma reads_sql_Open d p : reads (sql_Open d p).
Proof.
  intros w. unfold run, sql_Open. destruct (String.eqb d "sqlite3").
  - exists [SqlOpen p]. reflexivity.
  - exists []. cbn. rewrite <- world_eta. reflexivity.
Qed.

Lemma reads_db_connect p : reads (db_connect p).
Proof.
  apply (reads_pure _ (fun fs => fst (db_connect p (mkWorld fs [])))).
  intros w. unfold db_connect. cbn [files].
  destruct (files w !! p) as [[? ? ? | ? ?] |]; reflexivity.
Qed.

Lemma reads_db_prepare db name : reads (db_prepare db name).
Proof.
  unfold db_prepare. apply reads_bind; [apply reads_db_connect |].
  intros b. destruct (sql_identifier name); [| apply reads_fail].
  destruct b as [ts | r |]; try apply reads_fail.
  destruct (find_table name ts); [apply reads_ret | apply reads_fail].
Qed.

Lemma reads_query_extent db name : reads (query_extent db name).
Proof.
  unfold query_extent. apply reads_bind; [apply reads_db_prepare |].
  intros t.
  destruct (list_min (map X (t_rows t))), (list_max (map X (t_rows t))),
    (list_min (map Y (t_rows t))), (list_max (map Y (t_rows t)));
    first [apply reads_ret | apply reads_fail].
Qed.

Lemma reads_listTables db : reads (listTables db).
Proof.
  unfold listTables. apply reads_bind; [apply reads_db_tables |].
  intros ts. apply reads_ret.
Qed.

Lemma reads_listAllFile d : reads (listAllFile d).
Proof.
  unfold listAllFile. apply reads_bind; [apply reads_os_ReadDir |].
  intros ds. apply reads_ret.
Qed.

Lemma reads_listSubDir d : reads (listSubDir d).
Proof.
  unfold listSubDir. apply reads_bind; [apply reads_os_ReadDir |].
  intros ds. apply reads_ret.
Qed.

Section ScanProperties.
Context `{GoLib}.

Lemma reads_calExtend_tables db names box : reads (calExtend_tables db names box).
Proof.
  revert box. induction names as [| n names IH]; intros box; cbn [calExtend_tables].
  - apply reads_ret.
  - apply reads_bind; [apply reads_query_extent |].
    intros [[[x0 x1] y0] y1]. apply IH.
Qed.

Lemma reads_calExtend f : reads (calExtend f).
Proof.
  unfold calExtend. apply reads_bind; [apply reads_sql_Open |].
  intros db. apply reads_bind; [apply reads_listTables |].
  intros names. apply reads_calExtend_tables.
Qed.

(** A shard whose extent was computed is a regular file. *)
Lemma calExtend_ok_file fs f b :
  run fs (calExtend f) = Ok b -> exists size body, fs !! f = Some (File size body).
Proof.
  unfold run, calExtend, bind, listTables, bind, db_tables, sql_Open.
  cbn [String.eqb Ascii.eqb Bool.eqb files log_event fst snd].
  destruct (fs !! f) as [[? ? ? | size body] |]; try discriminate.
  intros _. eauto.
Qed.

Lemma accumulated_cons fs f shards :
  accumulated fs (f :: shards)
  = if is_ok (run fs (calExtend f)) then f :: accumulated fs shards
    else accumulated fs shards.
Proof. reflexivity. Qed.

Lemma accumulated_app fs l1 l2 :
  accumulated fs (l1 ++ l2) = accumulated fs l1 ++ accumulated fs l2.
Proof. unfold accumulated. apply List.filter_app. Qed.

Lemma union_box_app fs l1 l2 box :
  union_box fs (l1 ++ l2) box = union_box fs l2 (union_box fs l1 box).
Proof. unfold union_box. apply fold_left_app. Qed.

Lemma total_size_app fs l1 l2 size :
  total_size fs (l1 ++ l2) size = total_size fs l2 (total_size fs l1 size).
Proof. unfold total_size. apply fold_left_app. Qed.

(** The loop over shard files never fails: it folds the shards whose
    extent could be computed into the box and the size. *)
Lemma scan_files_spec shards box size w :
  exists l,
    scan_files shards box size w
    = (Ok (union_box (files w) (accumulated (files w) shards) box,
           total_size (files w) (accumulated (files w) shards) size),
       mkWorld (files w) (sql_log w ++ l)).
Proof.
  revert box size w. induction shards as [| f shards IH]; intros box size w.
  - exists []. cbn. rewrite <- world_eta. reflexivity.
  - cbn [scan_files]. unfold bind at 1. unfold attempt at 1.
    destruct (reads_calExtend f w) as [l1 E1]. rewrite E1.
    rewrite accumulated_cons.
    destruct (run (files w) (calExtend f)) as [box1 |] eqn:Erun; cbn [is_ok].
    + destruct (calExtend_ok_file _ _ _ Erun) as (sz & body & Hf).
      unfold bind at 1. unfold attempt at 1. unfold os_Stat at 1. cbn [files].
      rewrite Hf.
      destruct (IH (extend box box1) (F64.add size (F64.of_int sz))
                  (mkWorld (files w) (sql_log w ++ l1))) as [l2 E2].
      cbn [fi_Size]. rewrite E2. cbn [files sql_log].
      exists (l1 ++ l2). rewrite app_assoc.
      unfold union_box, total_size. cbn [fold_left]. rewrite Erun.
      unfold size_of. rewrite Hf. reflexivity.
    + destruct (IH box size (mkWorld (files w) (sql_log w ++ l1))) as [l2 E2].
      rewrite E2. cbn [files sql_log]. exists (l1 ++ l2). rewrite app_assoc. reflexivity.
Qed.

(** The loop over zoom directories fails exactly when one of them cannot
    be listed. *)
Lemma scan_subdirs_spec subdirs box size w :
  exists l,
    scan_subdirs subdirs box size w
    = (match all_files (files w) subdirs with
       | Ok shards =>
           Ok (union_box (files w) (accumulated (files w) shards) box,
               total_size (files w) (accumulated (files w) shards) size)
       | Err e => Err e
       end,
       mkWorld (files w) (sql_log w ++ l)).
Proof.
  revert box size w. induction subdirs as [| sub subdirs IH]; intros box size w.
  - exists []. cbn. rewrite <- world_eta. reflexivity.
  - cbn [scan_subdirs all_files]. unfold bind at 1.
    destruct (reads_listAllFile sub w) as [l1 E1]. rewrite E1.
    destruct (run (files w) (listAllFile sub)) as [fl | e].
    + unfold bind at 1.
      destruct (scan_files_spec fl box size (mkWorld (files w) (sql_log w ++ l1)))
        as [l2 E2].
      rewrite E2. cbn [files sql_log fst snd].
      destruct (IH (union_box (files w) (accumulated (files w) fl) box)
                  (total_size (files w) (accumulated (files w) fl) size)
                  (mkWorld (files w) ((sql_log w ++ l1) ++ l2))) as [l3 E3].
      rewrite E3. cbn [files sql_log]. exists (l1 ++ l2 ++ l3).
      rewrite !app_assoc.
      destruct (all_files (files w) subdirs) as [r | e]; [| reflexivity].
      rewrite accumulated_app, union_box_app, total_size_app. reflexivity.
    + exists l1. reflexivity.
Qed.

End ScanProperties.

Section Catalogue.
Context `{GoLib}.

(** [analysisRepository] is the scan of the shards followed by the write
    of the sidecar. *)
Lemma analysisRepository_scan baseDir entry w :
  exists l,
    analysisRepository baseDir entry w
    = match shards_of (files w) (filepath_Join baseDir [de_Name entry]) with
      | Err e => (Err e, mkWorld (files w) (sql_log w ++ l))
      | Ok shards =>
          write_sidecar (sidecar baseDir (de_Name entry))
            (described (files w) (de_Name entry) shards)
            (mkWorld (files w) (sql_log w ++ l))
      end.
Proof.
  unfold analysisRepository, shards_of. unfold bind at 1.
  destruct (reads_listSubDir (filepath_Join baseDir [de_Name entry]) w) as [l1 E1].
  rewrite E1.
  destruct (run (files w) (listSubDir _)) as [subdirs | e]; [| exists l1; reflexivity].
  unfold bind at 1.
  destruct (scan_subdirs_spec subdirs NewBox F64.zero (mkWorld (files w) (sql_log w ++ l1)))
    as [l2 E2].
  rewrite E2. cbn [files sql_log]. exists (l1 ++ l2). rewrite app_assoc.
  destruct (all_files (files w) subdirs) as [shards | e]; reflexivity.
Qed.

(** Writing the sidecar either stores the descriptor or fails. *)
Lemma write_sidecar_cases p repo w :
  (exists w', write_sidecar p repo w = (Ok repo, w')
              /\ files w' !! p = Some (File (json_len repo) (Json repo))
              /\ sql_log w' = sql_log w)
  \/ (exists e w', write_sidecar p repo w = (Err e, w')).
Proof.
  unfold write_sidecar, bind, wrapping, lift, json_MarshalIndent.
  destruct (F64.is_finite (Lng repo) && F64.is_finite (Lat repo) && F64.is_finite (Size repo));
    [| right; eauto].
  unfold os_Create.
  destruct (files w !! parent p) as [[r [] names | size b] |]; try (right; eauto; fail).
  destruct (last p) as [n |]; [| right; eauto].
  destruct (files w !! p) as [[? ? ? | ? ?] |] eqn:Hp; try (right; eauto; fail);
    unfold file_Write; cbn [files sql_log fst snd]; rewrite lookup_insert_eq;
    (destruct (write_fault p (json_len repo)) as [k |]; [right; eauto |]);
    left; eexists; (split; [reflexivity |]); cbn [files sql_log];
    rewrite lookup_insert_eq; split; reflexivity.
Qed.

(** What writing the sidecar may change: the sidecar and its name in the
    parent directory; and when it fails having changed something, the
    failure is that of the write and the sidecar does not hold a
    descriptor. *)
Lemma write_sidecar_frame p repo w r w' :
  write_sidecar p repo w = (r, w') ->
  sql_log w' = sql_log w
  /\ (forall q, q <> p -> q <> parent p -> files w' !! q = files w !! q)
  /\ (forall e, r = Err e ->
      files w' = files w
      \/ exists cause k,
           e = Wrapf "failed to write repository.json" cause
           /\ files w' !! p = Some (File k Opaque)).
Proof.
  unfold write_sidecar, bind, wrapping, lift, json_MarshalIndent.
  destruct (F64.is_finite (Lng repo) && F64.is_finite (Lat repo) && F64.is_finite (Size repo));
    [| intros E; injection E as <- <-; split; [reflexivity |]; split; [reflexivity |];
       intros e _; left; reflexivity].
  unfold os_Create.
  destruct (files w !! parent p) as [[rd [] names | size b] |];
    try (intros E; injection E as <- <-; split; [reflexivity |]; split; [reflexivity |];
         intros e _; left; reflexivity).
  destruct (last p) as [n |];
    [| intros E; injection E as <- <-; split; [reflexivity |]; split; [reflexivity |];
       intros e _; left; reflexivity].
  destruct (files w !! p) as [[? ? ? | ? ?] |] eqn:Hp;
    try (intros E; injection E as <- <-; split; [reflexivity |]; split; [reflexivity |];
         intros e _; left; reflexivity);
    unfold file_Write; cbn [files sql_log fst snd]; rewrite lookup_insert_eq;
    (destruct (write_fault p (json_len repo)) as [k |]);
    intros E; injection E as <- <-; cbn [files sql_log];
    (split; [reflexivity |]); (split; [intros q H1 H2; rewrite !lookup_insert_ne by congruence;
                                        reflexivity |]);
    intros e He; try discriminate; right; injection He as <-;
    eexists; exists k; (split; [reflexivity |]); apply lookup_insert_eq.
Qed.

(** C7: a descriptor returned by a successful scan has analyzed=true and
    zoom 14; its size is the sum of the sizes of the shard files the scan
    accumulated, and its centre is the midpoint of the box accumulated from
    them. *)
Theorem successful_scan_descriptor baseDir entry w repo w' :
  analysisRepository baseDir entry w = (Ok repo, w') ->
  exists shards,
    shards_of (files w) (filepath_Join baseDir [de_Name entry]) = Ok shards
    /\ let acc := accumulated (files w) shards in
       let box := union_box (files w) acc NewBox in
       Pared repo = true
       /\ Zoom repo = 14
       /\ Size repo = total_size (files w) acc F64.zero
       /\ Lng repo = F64.mul half (F64.add (minx box) (maxx box))
       /\ Lat repo = F64.mul half (F64.add (miny box) (maxy box)).
Proof.
  intros Hrun. destruct (analysisRepository_scan baseDir entry w) as [l E].
  rewrite Hrun in E.
  destruct (shards_of (files w) _) as [shards | e]; [| discriminate].
  exists shards. split; [reflexivity |].
  destruct (write_sidecar_cases (sidecar baseDir (de_Name entry))
              (described (files w) (de_Name entry) shards)
              (mkWorld (files w) (sql_log w ++ l))) as [(w2 & Hw & _) | (e & w2 & Hw)];
    rewrite Hw in E; [| discriminate].
  injection E as -> _. cbn. repeat split; reflexivity.
Qed.

End Catalogue.

Lemma successful_scan_descriptor_witness :
  match @analysisRepository eval_lib ["root"] (mkDirEntry "city" true) world_corrupt with
  | (Ok repo, _) => Pared repo = true /\ Zoom repo = 14 /\ Size repo = F64.of_int 8192
  | (Err _, _) => False
  end.
Proof.
  pose proof (@successful_scan_descriptor eval_lib ["root"] (mkDirEntry "city" true)
                world_corrupt) as T.
  destruct (@analysisRepository eval_lib ["root"] (mkDirEntry "city" true) world_corrupt)
    as [[repo | e] w'] eqn:E.
  - destruct (T repo w' eq_refl) as (shards & Hs & Hp & Hz & Hsize & _).
    split; [exact Hp |]. split; [exact Hz |].
    rewrite Hsize. vm_compute in Hs. injection Hs as <-. vm_compute. reflexivity.
  - vm_compute in E. discriminate E.
Defined.

(** ** The catalogue and its fallback *)

Lemma SFeqb_finite_eq x s m e :
  SFeqb x (S754_finite s m e) = true -> x = S754_finite s m e.
Proof.
  unfold SFeqb.
  destruct x as [sx | sx | | sx mx ex]; try (destruct sx, s; discriminate); try discriminate.
  destruct sx, s; try discriminate.
  - rewrite compare_neg_finite.
    destruct (Z.compare_spec ex e) as [-> | |]; try discriminate.
    destruct (Pos.compare_spec mx m) as [-> | |]; try discriminate. reflexivity.
  - rewrite compare_pos_finite.
    destruct (Z.compare_spec ex e) as [-> | |]; try discriminate.
    destruct (Pos.compare_spec mx m) as [-> | |]; try discriminate. reflexivity.
Qed.

Lemma IsEmpty_NewBox b : IsEmpty b = true -> b = NewBox.
Proof.
  destruct b as [x0 y0 x1 y1]. unfold IsEmpty, NewBox. cbn [minx miny maxx maxy].
  rewrite MaxFloat64_eq. cbn [F64.neg SFopp negb].
  intros Hb. apply andb_prop in Hb as [Hb H4]. apply andb_prop in Hb as [Hb H3].
  apply andb_prop in Hb as [H1 H2].
  apply SFeqb_finite_eq in H1, H2, H3, H4. subst. reflexivity.
Qed.

Lemma NewBox_midpoint :
  F64.mul half (F64.add (minx NewBox) (maxx NewBox)) = F64.zero
  /\ F64.mul half (F64.add (miny NewBox) (maxy NewBox)) = F64.zero.
Proof. vm_compute. split; reflexivity. Qed.

Lemma readRepositoryInfo_world baseDir entry w :
  snd (readRepositoryInfo baseDir entry w) = w.
Proof.
  unfold readRepositoryInfo, bind, wrapping, os_Open, json_Decode, bind, os_ReadFile.
  destruct (files w !! sidecar baseDir (de_Name entry)) as [[? ? ? | ? []] |] eqn:E;
    cbn; rewrite ?E; reflexivity.
Qed.

Lemma sidecar_parent baseDir name :
  parent (sidecar baseDir name) = filepath_Join baseDir [name]
  /\ last (sidecar baseDir name) = Some "repository.json".
Proof.
  unfold sidecar, parent, filepath_Join.
  change (baseDir ++ [name; "repository.json"])
    with (baseDir ++ [name] ++ ["repository.json"]).
  rewrite app_assoc. split; [apply removelast_last | apply last_snoc].
Qed.

Section CatalogueFallback.
Context `{GoLib}.

(** The listing is the list of the descriptors of its directories. *)
Lemma list_entries_descriptors baseDir dirs :
  forall repositories w,
    list_entries baseDir dirs repositories w
    = (Ok (repositories ++ fst (all_descriptors baseDir dirs w)),
       snd (all_descriptors baseDir dirs w)).
Proof.
  induction dirs as [| d dirs IH]; intros repositories w.
  - cbn. rewrite app_nil_r. reflexivity.
  - cbn [list_entries all_descriptors]. destruct (de_IsDir d); [| apply IH].
    unfold entry_descriptor. unfold bind at 1. unfold attempt at 1.
    destruct (readRepositoryInfo baseDir d w) as [[repo | e] w1].
    + rewrite IH. destruct (all_descriptors baseDir dirs w1) as [repos w2].
      cbn. rewrite <- app_assoc. reflexivity.
    + unfold bind at 1. unfold attempt at 1.
      destruct (analysisRepository baseDir d w1) as [[repo | e'] w2];
        rewrite IH; destruct (all_descriptors baseDir dirs w2) as [repos w3];
        cbn; rewrite <- app_assoc; reflexivity.
Qed.

(** C2, as the code has it.  The loops of the scan skip a shard whose
    database cannot be read: it adds neither extent nor size, and the scan
    goes on with the shards after it.  The loops fail only when a
    directory cannot be listed, and such a failure is the error of
    [analysisRepository].  Whatever happens to one repository, the listing
    goes on: it returns, for every directory in turn, the descriptor of
    its sidecar, else that of its scan, else the placeholder, each made in
    the world the directories before it left. *)
Theorem shard_errors_are_skipped baseDir entry w :
  (forall f rest box size e,
      run (files w) (calExtend f) = Err e ->
      fst (scan_files (f :: rest) box size w) = fst (scan_files rest box size w))
  /\ (forall subdirs box size,
        is_ok (fst (scan_subdirs subdirs box size w)) = is_ok (all_files (files w) subdirs))
  /\ (forall e,
        shards_of (files w) (filepath_Join baseDir [de_Name entry]) = Err e ->
        fst (analysisRepository baseDir entry w) = Err e)
  /\ (forall dirs repositories,
        list_entries baseDir dirs repositories w
        = (Ok (repositories ++ fst (all_descriptors baseDir dirs w)),
           snd (all_descriptors baseDir dirs w))).
Proof.
  repeat split.
  - intros f rest box size e Hf.
    destruct (scan_files_spec (f :: rest) box size w) as [l1 ->].
    destruct (scan_files_spec rest box size w) as [l2 ->].
    rewrite accumulated_cons, Hf. reflexivity.
  - intros subdirs box size.
    destruct (scan_subdirs_spec subdirs box size w) as [l ->].
    destruct (all_files (files w) subdirs); reflexivity.
  - intros e He. destruct (analysisRepository_scan baseDir entry w) as [l ->].
    rewrite He. reflexivity.
  - intros dirs repositories. apply list_entries_descriptors.
Qed.

End CatalogueFallback.

(** C1 fails on an empty repository directory.  No shard is found and the
    accumulator is the empty box, which the scan never tests: the scan
    succeeds, the listing returns a descriptor with analyzed=true, zoom 14
    and the centre (0,0), not the placeholder, and the sidecar is
    written. *)
Lemma empty_repository_is_analysed :
  shards_of (files world_new) ["root"; "new"] = Ok []
  /\ IsEmpty (@union_box eval_lib (files world_new)
                (@accumulated eval_lib (files world_new) []) NewBox) = true
  /\ fst (@analysisRepository eval_lib ["root"] (mkDirEntry "new" true) world_new)
     = Ok (mkRepository "new" F64.zero F64.zero 14 F64.zero "new" true)
  /\ fst (@ListRepositories eval_lib ["root"] world_new)
     = Ok [mkRepository "new" F64.zero F64.zero 14 F64.zero "new" true]
  /\ fst (@ListRepositories eval_lib ["root"] world_new) <> Ok [placeholder "new"]
  /\ files (snd (@ListRepositories eval_lib ["root"] world_new))
       !! ["root"; "new"; "repository.json"]
     = Some (File 160 (Json (mkRepository "new" F64.zero F64.zero 14 F64.zero "new" true))).
Proof.
  split; [vm_compute; reflexivity |]. split; [vm_compute; reflexivity |].
  split; [vm_compute; reflexivity |]. split; [vm_compute; reflexivity |].
  split; [| vm_compute; reflexivity].
  vm_compute. discriminate.
Qed.

(** C2 fails on a file that is no database among the shards: reading it fails, the
    scan of the repository still succeeds, and the descriptor counts the
    other shard only. *)
Lemma corrupt_shard_is_skipped :
  shards_of (files world_corrupt) ["root"; "city"]
  = Ok [["root"; "city"; "K"; "K_1_0.s"]; ["root"; "city"; "K"; "bad.s"]]
  /\ fst (@calExtend eval_lib ["root"; "city"; "K"; "bad.s"] world_corrupt)
     = Err (SqlError "file is not a database")
  /\ match fst (@analysisRepository eval_lib ["root"] (mkDirEntry "city" true) world_corrupt) with
     | Ok repo => Pared repo = true /\ Size repo = F64.of_int 8192
     | Err _ => False
     end.
Proof. vm_compute. repeat split; reflexivity. Qed.

Lemma shard_errors_are_skipped_witness :
  fst (@scan_files eval_lib
         [["root"; "city"; "K"; "bad.s"]; ["root"; "city"; "K"; "K_1_0.s"]]
         NewBox F64.zero world_corrupt)
  = fst (@scan_files eval_lib [["root"; "city"; "K"; "K_1_0.s"]] NewBox F64.zero world_corrupt)
  /\ match fst (@list_entries eval_lib ["root"]
                  [mkDirEntry "closed" true; mkDirEntry "town" true] [] world_siblings) with
     | Ok [closed; town] =>
         closed = placeholder "closed" /\ Pared town = true /\ Size town = F64.of_int 8192
     | _ => False
     end.
Proof.
  split.
  - refine (proj1 (@shard_errors_are_skipped eval_lib ["root"] (mkDirEntry "city" true)
                     world_corrupt)
              _ _ _ _ (SqlError "file is not a database") _).
    vm_compute. reflexivity.
  - rewrite (proj2 (proj2 (proj2 (@shard_errors_are_skipped eval_lib ["root"]
                                    (mkDirEntry "closed" true) world_siblings)))
               [mkDirEntry "closed" true; mkDirEntry "town" true] []).
    vm_compute. repeat split; reflexivity.
Defined.

(** * Further properties of the code *)

(** ** The tile store *)

(** A tile stored at its address is fetched: when the shard file of the
    tile is a database, the table name of the tile is a plain identifier,
    so that the statement it is spliced into parses, and the table of that
    name holds a row with the tile's index, [GetXYZ] returns the data of
    the first such row as it is stored, and the handle it opened is closed
    again. *)
Theorem fetch_stored_tile f x y z w size ts t pre r post :
  files w !! filePath f x y z = Some (File size (Sqlite ts)) ->
  sql_identifier (tableName x y z) = true ->
  find_table (tableName x y z) ts = Some t ->
  t_rows t = pre ++ r :: post ->
  Forall (fun r' => ID r' <> index x y) pre ->
  ID r = index x y ->
  GetXYZ f x y z w
  = (Ok (Data r),
     mkWorld (files w)
       (sql_log w ++ [SqlOpen (filePath f x y z); SqlClose (filePath f x y z)])).
Proof.
  intros Hf Hid Ht Hrows Hpre Hr.
  rewrite GetXYZ_opened by (left; congruence).
  rewrite (query_Data_found _ _ _ _ _ _ _ Hf Hid Ht), Hrows.
  rewrite filter_app, map_app, no_row_no_data by exact Hpre.
  rewrite filter_cons_True by exact Hr. reflexivity.
Qed.

Lemma fetch_stored_tile_witness :
  GetXYZ city 300 70 10 world_city
  = (Ok [x89; x50; x4e; x47],
     mkWorld (files world_city)
       ([] ++ [SqlOpen (filePath city 300 70 10); SqlClose (filePath city 300 70 10)])).
Proof.
  refine (fetch_stored_tile city 300 70 10 world_city 8192
            [mkTable "K_4_1" [tile_300_70]] (mkTable "K_4_1" [tile_300_70])
            [] tile_300_70 [] _ _ _ _ _ _).
  - vm_compute. reflexivity.
  - vm_compute. reflexivity.
  - vm_compute. reflexivity.
  - reflexivity.
  - constructor.
  - vm_compute. reflexivity.
Defined.



(** When the shard file exists, an error of the query (the file is no
    database, the table is missing) is returned as it is, not as the
    not-exist message, after the handle was closed. *)
Theorem GetXYZ_query_error f x y z w n e :
  files w !! filePath f x y z = Some n ->
  run (files w) (query_Data (filePath f x y z) (tableName x y z) (index x y)) = Err e ->
  GetXYZ f x y z w
  = (Err e,
     mkWorld (files w)
       (sql_log w ++ [SqlOpen (filePath f x y z); SqlClose (filePath f x y z)])).
Proof.
  intros Hf Hq. rewrite GetXYZ_opened by (left; congruence).
  rewrite Hq. reflexivity.
Qed.

Lemma GetXYZ_query_error_witness :
  GetXYZ city 400 70 10 world_city
  = (Err (SqlError "no such table: K_6_1"),
     mkWorld (files world_city)
       ([] ++ [SqlOpen (filePath city 400 70 10); SqlClose (filePath city 400 70 10)])).
Proof.
  refine (GetXYZ_query_error city 400 70 10 world_city
            (File 8192 (Sqlite [mkTable "K_4_1" [tile_300_70]])) _ _ _).
  - vm_compute. reflexivity.
  - vm_compute. reflexivity.
Defined.

(** ** Addresses *)

Lemma index_parts x y :
  0 <= x -> 0 <= y ->
  Z.rem (index x y) 64 = Z.rem x 64 /\ Z.quot (index x y) 64 = Z.rem y 64.
Proof.
  intros Hx Hy. rewrite index_eq.
  pose proof (Z.rem_bound_pos x 64 Hx ltac:(lia)) as Bx.
  pose proof (Z.rem_bound_pos y 64 Hy ltac:(lia)) as By.
  split.
  - rewrite Z.rem_mod_nonneg by lia. rewrite Z.mul_comm, Z.mod_add by lia.
    apply Z.mod_small. lia.
  - rewrite Z.quot_div_nonneg by lia. rewrite Z.mul_comm, Z.div_add by lia.
    rewrite Z.div_small by lia. lia.
Qed.

(** The address identifies the tile: for x, y >= 0 the tile is recovered
    from the block numbers in the table name and the row index, and the
    shard of a table is the one whose numbers are the table's divided by
    4. *)
Theorem address_decodes x y :
  0 <= x -> 0 <= y ->
  x = 64 * Z.quot x 64 + Z.rem (index x y) 64
  /\ y = 64 * Z.quot y 64 + Z.quot (index x y) 64
  /\ Z.quot x 256 = Z.quot (Z.quot x 64) 4
  /\ Z.quot y 256 = Z.quot (Z.quot y 64) 4.
Proof.
  intros Hx Hy. destruct (index_parts x y Hx Hy) as [R Q].
  pose proof (Z.quot_rem' x 64) as Ex. pose proof (Z.quot_rem' y 64) as Ey.
  rewrite R, Q. repeat split; try lia.
  - rewrite !Z.quot_div_nonneg by (try apply Z.quot_pos; lia).
    rewrite Z.div_div by lia. reflexivity.
  - rewrite !Z.quot_div_nonneg by (try apply Z.quot_pos; lia).
    rewrite Z.div_div by lia. reflexivity.
Qed.

Lemma address_decodes_witness :
  300 = 64 * Z.quot 300 64 + Z.rem (index 300 70) 64
  /\ 70 = 64 * Z.quot 70 64 + Z.quot (index 300 70) 64
  /\ Z.quot 300 256 = Z.quot (Z.quot 300 64) 4
  /\ Z.quot 70 256 = Z.quot (Z.quot 70 64) 4.
Proof. apply address_decodes; lia. Defined.

(** Go's [%] keeps the sign of the dividend: for coordinates that are not
    positive the row index lies in [-4095, 0], outside the rows of a table
    unless it is 0. *)
Theorem nonpositive_coordinates_index x y :
  x <= 0 -> y <= 0 -> -4095 <= index x y <= 0.
Proof.
  intros Hx Hy. rewrite index_eq.
  pose proof (Z.rem_bound_abs x 64 ltac:(lia)) as Ax.
  pose proof (Z.rem_bound_abs y 64 ltac:(lia)) as Ay.
  pose proof (Z.rem_nonpos x 64 ltac:(lia) Hx) as Nx.
  pose proof (Z.rem_nonpos y 64 ltac:(lia) Hy) as Ny.
  lia.
Qed.

Lemma nonpositive_coordinates_index_witness : -4095 <= index (-1) (-70) <= 0.
Proof. apply nonpositive_coordinates_index; lia. Defined.

Lemma N_of_ascii_of_N (n : N) : (n < 256)%N -> N_of_ascii (ascii_of_N n) = n.
Proof. apply N_ascii_embedding. Qed.

(** The zoom directory of a request is one the scanner lists exactly for
    zoom levels up to 25: above, ['A'+vz] is no capital letter (and past
    62 it overflows [int8]), so [GetXYZ] looks where no scan goes. *)
Theorem zoom_letter_window z :
  in_int 8 z -> (is_zoom_letter (subDir z) = true <-> z <= 25).
Proof.
  unfold in_int. change (2 ^ (8 - 1)) with 128. intros Hz.
  unfold subDir, zoomLetter, vz, fmt_c.
  destruct (Z_le_dec (Z.max z 9) 62) as [Hs | Hl].
  - rewrite wrap_small by (unfold in_int; change (2 ^ (8 - 1)) with 128; lia).
    rewrite bool_decide_eq_true_2 by lia.
    unfold is_zoom_letter. rewrite N_of_ascii_of_N by lia.
    rewrite andb_true_iff, N.leb_le, N.leb_le. split.
    + intros [_ Hu]. lia.
    + intros Hle. split; lia.
  - assert (Hw : wrap 8 (65 + Z.max z 9) = 65 + Z.max z 9 - 256).
    { unfold wrap. change (2 ^ (8 - 1)) with 128. change (2 ^ 8) with 256.
      replace (65 + Z.max z 9 + 128) with ((65 + Z.max z 9 - 128) + 1 * 256) by lia.
      rewrite Z.mod_add by lia. rewrite Z.mod_small by lia. lia. }
    rewrite Hw. rewrite bool_decide_eq_false_2 by lia.
    cbn [is_zoom_letter]. split; [discriminate | lia].
Qed.

Lemma zoom_letter_window_witness :
  is_zoom_letter (subDir 25) = true /\ is_zoom_letter (subDir 26) = false.
Proof.
  split.
  - apply (zoom_letter_window 25); [unfold in_int; lia | lia].
  - destruct (is_zoom_letter (subDir 26)) eqn:E; [| reflexivity].
    apply (zoom_letter_window 26) in E; [lia | unfold in_int; lia].
Defined.

(** ** Names of shards and tables *)

Lemma append_cons a s t : String a s +:+ t = String a (s +:+ t).
Proof. reflexivity. Qed.

Lemma append_nil t : "" +:+ t = t.
Proof. reflexivity. Qed.

Lemma has_char_app c s t : has_char c (s +:+ t) = has_char c s || has_char c t.
Proof.
  induction s as [| a s IH]; [reflexivity |].
  rewrite append_cons. cbn [has_char]. rewrite IH, orb_assoc. reflexivity.
Qed.

Lemma pretty_N_char_underscore x : Ascii.eqb (pretty_N_char x) "_" = false.
Proof. unfold pretty_N_char. repeat case_match; reflexivity. Qed.

Lemma pretty_N_go_underscore x s :
  has_char "_" (pretty_N_go x s) = has_char "_" s.
Proof.
  revert s. induction (N.lt_wf_0 x) as [x _ IH]; intros s.
  assert (x = 0 \/ 0 < x)%N as [-> | Hpos] by lia.
  - rewrite pretty_N_go_0. reflexivity.
  - rewrite pretty_N_go_step by exact Hpos.
    rewrite IH by (apply N.div_lt; lia).
    cbn [has_char]. rewrite pretty_N_char_underscore. reflexivity.
Qed.

Lemma fmt_d_underscore v : has_char "_" (fmt_d v) = false.
Proof.
  unfold fmt_d, pretty, pretty_Z.
  assert (HN : forall n : N, has_char "_" (pretty n) = false).
  { intros n. unfold pretty, pretty_N. case_decide; [reflexivity |].
    apply pretty_N_go_underscore. }
  destruct v as [| p | p]; [reflexivity | apply HN |].
  rewrite has_char_app. apply (HN (N.pos p)).
Qed.

Lemma split_fresh c s : has_char c s = false -> strings_Split s c = [s].
Proof.
  induction s as [| a s IH]; [reflexivity |].
  cbn. intros Hc. apply orb_false_iff in Hc as [Ha Hs].
  rewrite Ha, (IH Hs). reflexivity.
Qed.

Lemma split_at c s t :
  has_char c s = false ->
  strings_Split (s +:+ String c t) c = s :: strings_Split t c.
Proof.
  induction s as [| a s IH]; intros Hc.
  - rewrite append_nil. cbn [strings_Split]. rewrite Ascii.eqb_refl. reflexivity.
  - cbn [has_char] in Hc. apply orb_false_iff in Hc as [Ha Hs].
    rewrite append_cons. cbn [strings_Split]. rewrite Ha, (IH Hs). reflexivity.
Qed.

Lemma append_sep_inj c s1 t1 s2 t2 :
  has_char c s1 = false -> has_char c s2 = false ->
  s1 +:+ String c t1 = s2 +:+ String c t2 -> s1 = s2 /\ t1 = t2.
Proof.
  revert s2. induction s1 as [| a s1 IH]; intros [| b s2] H1 H2 E;
    rewrite ?append_cons, ?append_nil in E; cbn [has_char] in *.
  - injection E as ->. split; reflexivity.
  - injection E as <- _. rewrite Ascii.eqb_refl in H2. discriminate.
  - injection E as -> _. rewrite Ascii.eqb_refl in H1. discriminate.
  - injection E as -> E. apply orb_false_iff in H1 as [_ H1], H2 as [_ H2].
    destruct (IH s2 H1 H2 E) as [-> ->]. split; reflexivity.
Qed.

Lemma zoomLetter_small z : z <= 62 -> zoomLetter z = 65 + vz z /\ 74 <= zoomLetter z <= 127.
Proof.
  intros Hz. unfold zoomLetter, vz.
  rewrite wrap_small by (unfold in_int; change (2 ^ (8 - 1)) with 128; lia). lia.
Qed.

Lemma fmt_c_small v :
  0 <= v < 128 -> fmt_c v = String (ascii_of_N (Z.to_N v)) EmptyString.
Proof. intros Hv. unfold fmt_c. rewrite bool_decide_eq_true_2 by lia. reflexivity. Qed.

(** The tables the store reads are tables the scanner counts, at the same
    zoom: for a zoom up to 62 other than 30 the table name of a tile
    splits at "_" into the letter and the two block numbers, which is what
    [listTables] keeps, and the zoom [calExtend] reads off its first byte is
    the clamped zoom of the request.  At zoom 30 the letter is "_" itself:
    the name has four parts and the scanner passes the table over. *)
Theorem store_tables_are_scanned x y z :
  z <= 62 ->
  (vz z <> 30 ->
   strings_Split (tableName x y z) "_"
   = [subDir z; fmt_d (Z.quot x 64); fmt_d (Z.quot y 64)])
  /\ (vz z = 30 -> length (strings_Split (tableName x y z) "_") = 4%nat)
  /\ wrap 32 (byte0 (tableName x y z) - 65) = vz z.
Proof.
  intros Hz. destruct (zoomLetter_small z Hz) as [Hl Hr].
  unfold tableName, subDir. rewrite fmt_c_small by lia.
  set (c := ascii_of_N (Z.to_N (zoomLetter z))).
  assert (Hc : N_of_ascii c = Z.to_N (zoomLetter z)).
  { apply N_ascii_embedding. lia. }
  change (String c "" +:+ "_" +:+ fmt_d (Z.quot x 64) +:+ "_" +:+ fmt_d (Z.quot y 64))
    with (String c "" +:+ String "_" (fmt_d (Z.quot x 64) +:+ String "_" (fmt_d (Z.quot y 64)))).
  assert (Htail : strings_Split (fmt_d (Z.quot x 64) +:+ String "_" (fmt_d (Z.quot y 64))) "_"
                  = [fmt_d (Z.quot x 64); fmt_d (Z.quot y 64)]).
  { rewrite split_at by apply fmt_d_underscore.
    rewrite split_fresh by apply fmt_d_underscore. reflexivity. }
  split; [| split].
  - intros Hne. rewrite split_at, Htail; [reflexivity |].
    cbn [has_char]. rewrite orb_false_r. apply Ascii.eqb_neq. intros Heq.
    rewrite Heq in Hc. cbn in Hc. lia.
  - intros H30. replace c with "_"%char.
    + rewrite append_cons, append_nil. cbn [strings_Split]. rewrite !Ascii.eqb_refl.
      rewrite Htail. reflexivity.
    + subst c. rewrite Hl, H30. reflexivity.
  - rewrite append_cons. cbn [byte0]. rewrite Hc, Z2N.id by lia. rewrite Hl.
    replace (65 + vz z - 65) with (vz z) by lia.
    apply wrap_small; [lia |]. unfold in_int. change (2 ^ (32 - 1)) with 2147483648.
    unfold vz in *. lia.
Qed.

Lemma store_tables_are_scanned_witness :
  strings_Split (tableName 300 70 10) "_" = ["K"; "4"; "1"]
  /\ wrap 32 (byte0 (tableName 300 70 10) - 65) = 10.
Proof.
  destruct (store_tables_are_scanned 300 70 10) as (Hs & _ & Hz); [lia |].
  split; [apply Hs; vm_compute; discriminate | exact Hz].
Defined.

Lemma ascii_of_N_inj (a b : N) :
  (a < 256)%N -> (b < 256)%N -> ascii_of_N a = ascii_of_N b -> a = b.
Proof.
  intros Ha Hb E. rewrite <- (N_ascii_embedding a Ha), <- (N_ascii_embedding b Hb), E.
  reflexivity.
Qed.

(** No two tiles share a row: up to zoom 62, two requests with x, y >= 0
    that resolve to the same table and row index are the same tile at the
    same clamped zoom.  From zoom 63 on ['A'+vz] overflows [int8] and every
    zoom resolves to the same names. *)
Theorem address_injective x y z x' y' z' :
  0 <= x -> 0 <= y -> 0 <= x' -> 0 <= y' ->
  (z <= 62 -> z' <= 62 ->
   tableName x y z = tableName x' y' z' -> index x y = index x' y' ->
   x = x' /\ y = y' /\ vz z = vz z')
  /\ (63 <= z < 128 -> 63 <= z' < 128 -> address x y z = address x y z').
Proof.
  intros Hx Hy Hx' Hy'. split.
  - intros Hz Hz' Ht Hi.
    destruct (zoomLetter_small z Hz) as [Hl Hr].
    destruct (zoomLetter_small z' Hz') as [Hl' Hr'].
    unfold tableName in Ht. rewrite !fmt_c_small in Ht by lia.
    rewrite !append_cons, !append_nil in Ht.
    injection Ht as Hc Ht.
    apply ascii_of_N_inj in Hc; [| lia | lia].
    apply append_sep_inj in Ht as [Ha Hb]; [| apply fmt_d_underscore | apply fmt_d_underscore].
    apply (inj pretty) in Ha. apply (inj pretty) in Hb.
    destruct (index_parts x y Hx Hy) as [R Q].
    destruct (index_parts x' y' Hx' Hy') as [R' Q'].
    rewrite Hi in R, Q.
    pose proof (Z.quot_rem' x 64). pose proof (Z.quot_rem' y 64).
    pose proof (Z.quot_rem' x' 64). pose proof (Z.quot_rem' y' 64).
    repeat split; lia.
  - intros Hz Hz'.
    assert (Hw : forall v, 63 <= v < 128 -> fmt_c (zoomLetter v) = fmt_c (-1)).
    { intros v Hv. unfold zoomLetter, vz, wrap.
      change (2 ^ (8 - 1)) with 128. change (2 ^ 8) with 256.
      replace (65 + Z.max v 9 + 128) with ((65 + Z.max v 9 - 128) + 1 * 256) by lia.
      rewrite Z.mod_add by lia. rewrite Z.mod_small by lia.
      unfold fmt_c. rewrite bool_decide_eq_false_2 by lia. reflexivity. }
    unfold address, subDir, dbFile, tableName. rewrite (Hw z Hz), (Hw z' Hz'). reflexivity.
Qed.

Lemma address_injective_witness :
  (tableName 300 70 10 = tableName 300 70 10 -> index 300 70 = index 300 70 ->
   300 = 300 /\ 70 = 70 /\ vz 10 = vz 10)
  /\ address 300 70 63 = address 300 70 100.
Proof.
  destruct (address_injective 300 70 10 300 70 10) as [Hinj _]; try lia.
  destruct (address_injective 300 70 63 300 70 100) as [_ Hcol]; try lia.
  split.
  - apply Hinj; lia.
  - apply Hcol; lia.
Defined.

(** ** Bounding boxes *)

Lemma SFcompare_antisym (x y : float64) :
  SFcompare y x = option_map CompOpp (SFcompare x y).
Proof.
  destruct x as [sx | sx | | sx mx ex], y as [sy | sy | | sy my ey];
    try reflexivity; try (destruct sx, sy; reflexivity); try (destruct sx; reflexivity);
    try (destruct sy; reflexivity).
  destruct sx, sy; try reflexivity.
  - rewrite !compare_neg_finite. rewrite (Z.compare_antisym ex ey).
    destruct (ex ?= ey); cbn; try reflexivity.
    rewrite (Pos.compare_antisym mx my). reflexivity.
  - rewrite !compare_pos_finite. rewrite (Z.compare_antisym ex ey).
    destruct (ex ?= ey); cbn; try reflexivity.
    rewrite (Pos.compare_antisym mx my). reflexivity.
Qed.

Lemma SFcompare_Eq (x y : float64) :
  SFcompare x y = Some Eq ->
  x = y \/ exists sx sy, x = S754_zero sx /\ y = S754_zero sy.
Proof.
  destruct x as [sx | sx | | sx mx ex], y as [sy | sy | | sy my ey];
    try discriminate; try (destruct sx; discriminate); try (destruct sy; discriminate).
  - intros _. right. eauto.
  - destruct sx, sy; try discriminate; intros _; left; reflexivity.
  - intros Hc. left. apply (SFeqb_finite_eq _ sy my ey). unfold SFeqb. rewrite Hc. reflexivity.
Qed.

Lemma nan_dec (x : float64) : {x = S754_nan} + {x <> S754_nan}.
Proof. destruct x; [right | right | left | right]; congruence. Qed.

Lemma compare_nan_r (x : float64) : SFcompare x S754_nan = None.
Proof. destruct x as [s | s | | s m e]; reflexivity. Qed.

Lemma fmin_nan_l (y : float64) : F64.fmin S754_nan y = S754_nan.
Proof.
  unfold F64.fmin, F64.neb, F64.ltb, SFeqb, SFltb. rewrite compare_nan_r.
  destruct (nan_dec y) as [-> | Hy]; [reflexivity |].
  rewrite (compare_refl y Hy). reflexivity.
Qed.

Lemma fmin_nan_r (x : float64) : F64.fmin x S754_nan = S754_nan.
Proof. reflexivity. Qed.

Lemma fmax_nan_l (y : float64) : F64.fmax S754_nan y = S754_nan.
Proof.
  unfold F64.fmax, F64.neb, F64.ltb, SFeqb, SFltb. rewrite compare_nan_r.
  destruct (nan_dec y) as [-> | Hy]; [reflexivity |].
  rewrite (compare_refl y Hy). reflexivity.
Qed.

Lemma fmax_nan_r (x : float64) : F64.fmax x S754_nan = S754_nan.
Proof. reflexivity. Qed.

Lemma fmin_comm (x y : float64) : F64.fmin x y = F64.fmin y x.
Proof.
  destruct (nan_dec x) as [-> | Hx]; [rewrite fmin_nan_l, fmin_nan_r; reflexivity |].
  destruct (nan_dec y) as [-> | Hy]; [rewrite fmin_nan_l, fmin_nan_r; reflexivity |].
  unfold F64.fmin, F64.neb, F64.ltb, SFeqb, SFltb.
  rewrite (compare_refl x Hx), (compare_refl y Hy). cbn [negb orb].
  rewrite (SFcompare_antisym x y).
  destruct (SFcompare x y) as [[] |] eqn:Hc; cbn [option_map CompOpp].
  - destruct (SFcompare_Eq x y Hc) as [-> | (sx & sy & -> & ->)].
    + destruct (SFcompare y F64.zero) as [[] |]; reflexivity.
    + cbn. rewrite orb_comm. reflexivity.
  - reflexivity.
  - reflexivity.
  - destruct x, y; try discriminate; congruence.
Qed.

Lemma fmax_comm (x y : float64) : F64.fmax x y = F64.fmax y x.
Proof.
  destruct (nan_dec x) as [-> | Hx]; [rewrite fmax_nan_l, fmax_nan_r; reflexivity |].
  destruct (nan_dec y) as [-> | Hy]; [rewrite fmax_nan_l, fmax_nan_r; reflexivity |].
  unfold F64.fmax, F64.neb, F64.ltb, SFeqb, SFltb.
  rewrite (compare_refl x Hx), (compare_refl y Hy). cbn [negb orb].
  rewrite (SFcompare_antisym x y).
  destruct (SFcompare x y) as [[] |] eqn:Hc; cbn [option_map CompOpp].
  - destruct (SFcompare_Eq x y Hc) as [-> | (sx & sy & -> & ->)].
    + destruct (SFcompare y F64.zero) as [[] |]; reflexivity.
    + cbn. rewrite andb_comm. reflexivity.
  - reflexivity.
  - reflexivity.
  - destruct x, y; try discriminate; congruence.
Qed.

(** The union of two boxes does not depend on the order, NaN bounds and
    signed zeros included; so the empty box is an identity on the right
    too: a shard whose database holds no tile table, for which
    [calExtend] returns the empty box, leaves the box accumulated from real
    data as it is. *)
Theorem extend_commutative (a b : Box) :
  extend a b = extend b a
  /\ (real_box a = true -> extend a NewBox = a).
Proof.
  assert (Hc : forall p q, extend p q = extend q p).
  { intros p q. unfold extend.
    rewrite (fmin_comm (minx p)), (fmin_comm (miny p)),
      (fmax_comm (maxx p)), (fmax_comm (maxy p)). reflexivity. }
  split; [apply Hc |].
  intros Hr. rewrite Hc.
  destruct a as [x0 y0 x1 y1]. unfold real_box in Hr. cbn [minx miny maxx maxy] in Hr.
  apply andb_prop in Hr as [Hr H4]. apply andb_prop in Hr as [Hr H3].
  apply andb_prop in Hr as [H1 H2].
  unfold extend, NewBox. cbn [minx miny maxx maxy].
  rewrite !fmin_MaxFloat64, !fmax_MinFloat64 by assumption. reflexivity.
Qed.

Lemma extend_commutative_witness :
  extend (mkBox (F64.of_int 113) (F64.of_int 39) (F64.of_int 114) (F64.of_int 40)) NewBox
  = mkBox (F64.of_int 113) (F64.of_int 39) (F64.of_int 114) (F64.of_int 40).
Proof.
  refine (proj2 (extend_commutative
                   (mkBox (F64.of_int 113) (F64.of_int 39) (F64.of_int 114) (F64.of_int 40))
                   NewBox) _).
  vm_compute. reflexivity.
Defined.

(** [IsEmpty] holds of the box [NewBox] returns and of no other: a box
    with a NaN or any other bound is not empty. *)
Theorem IsEmpty_exact (b : Box) : IsEmpty b = true <-> b = NewBox.
Proof.
  split; [apply IsEmpty_NewBox |]. intros ->. vm_compute. reflexivity.
Qed.

(** ** The scanner *)

Lemma db_tables_world db w : snd (db_tables db w) = w.
Proof.
  unfold db_tables. destruct (files w !! db) as [[? ? ? | ? []] |]; reflexivity.
Qed.

Lemma query_extent_world db name w : snd (query_extent db name w) = w.
Proof.
  unfold query_extent, bind. rewrite db_prepare_silent.
  destruct (run (files w) (db_prepare db name)) as [t | e]; [| reflexivity].
  destruct (list_min (map X (t_rows t))), (list_max (map X (t_rows t))),
    (list_min (map Y (t_rows t))), (list_max (map Y (t_rows t))); reflexivity.
Qed.

Section ScanEffects.
Context `{GoLib}.

Lemma calExtend_tables_world db names box w :
  snd (calExtend_tables db names box w) = w.
Proof.
  revert box. induction names as [| n names IH]; intros box; [reflexivity |].
  cbn [calExtend_tables]. unfold bind.
  pose proof (query_extent_world db n w) as Hw.
  destruct (query_extent db n w) as [[[[[x0 x1] y0] y1] | e] w1]; cbn in Hw; subst w1;
    [apply IH | reflexivity].
Qed.

Lemma calExtend_world f w : snd (calExtend f w) = log_event (SqlOpen f) w.
Proof.
  unfold calExtend, bind, sql_Open, listTables, bind. cbn [String.eqb Ascii.eqb Bool.eqb].
  pose proof (db_tables_world f (log_event (SqlOpen f) w)) as Hw.
  destruct (db_tables f (log_event (SqlOpen f) w)) as [[ts | e] w1]; cbn in Hw; subst w1;
    [| reflexivity].
  cbn [ret]. apply calExtend_tables_world.
Qed.

Lemma os_Stat_world p w : snd (os_Stat p w) = w.
Proof. unfold os_Stat. destruct (files w !! p) as [[? ? ? | ? ?] |]; reflexivity. Qed.


Lemma calExtend_tables_fail db names box fs tn e :
  In tn names ->
  run fs (query_extent db tn) = Err e ->
  is_ok (run fs (calExtend_tables db names box)) = false.
Proof.
  intros Hin Hq. revert box. induction names as [| n names IH]; intros box; [destruct Hin |].
  cbn [calExtend_tables].
  rewrite run_bind;
    [| apply reads_query_extent
     | intros [[[x0 x1] y0] y1]; apply reads_calExtend_tables].
  destruct (run fs (query_extent db n)) as [[[[x0 x1] y0] y1] | e'] eqn:En; [| reflexivity].
  destruct Hin as [-> | Hin]; [congruence | apply IH, Hin].
Qed.

(** When one tile table of a shard makes the extent query fail (an empty
    table does), [calExtend] fails for the whole shard: the scan counts
    neither the extent of its other tables nor its size. *)
Theorem failing_table_drops_shard f rest box size w sz ts tn e :
  files w !! f = Some (File sz (Sqlite ts)) ->
  In tn (map t_name ts) ->
  length (strings_Split tn "_") = 3%nat ->
  run (files w) (query_extent f tn) = Err e ->
  is_ok (run (files w) (calExtend f)) = false
  /\ fst (scan_files (f :: rest) box size w) = fst (scan_files rest box size w).
Proof.
  intros Hf Hin Hparts Hq.
  assert (Hfail : is_ok (run (files w) (calExtend f)) = false).
  { unfold calExtend.
    rewrite run_bind;
      [| apply reads_sql_Open
       | intros db; apply reads_bind;
         [apply reads_listTables | intros; apply reads_calExtend_tables]].
    change (run (files w) (sql_Open "sqlite3" f)) with (@Ok path f). cbv iota beta.
    rewrite run_bind; [| apply reads_listTables | intros; apply reads_calExtend_tables].
    assert (Hl : run (files w) (listTables f)
                 = Ok (List.filter
                         (fun tableName => (length (strings_Split tableName "_") =? 3)%nat)
                         (map t_name ts))).
    { unfold run, listTables, bind, db_tables. cbn [files]. rewrite Hf. reflexivity. }
    rewrite Hl. apply (calExtend_tables_fail _ _ _ _ tn e); [| exact Hq].
    apply List.filter_In. split; [exact Hin |]. rewrite Hparts. reflexivity. }
  split; [exact Hfail |].
  destruct (scan_files_spec (f :: rest) box size w) as [l1 ->].
  destruct (scan_files_spec rest box size w) as [l2 ->].
  rewrite accumulated_cons, Hfail. reflexivity.
Qed.

End ScanEffects.

(** A shard with the table of tile (300, 70) and an empty table. *)
Lemma failing_table_drops_shard_witness :
  is_ok (run (<[ ["root"; "city"; "K"; "K_1_0.s"] :=
                  File 8192 (Sqlite [mkTable "K_4_1" [tile_300_70]; mkTable "K_5_1" []]) ]>
              (files world_city))
           (@calExtend eval_lib ["root"; "city"; "K"; "K_1_0.s"]))
  = false.
Proof.
  refine (proj1 (@failing_table_drops_shard eval_lib ["root"; "city"; "K"; "K_1_0.s"] []
                   NewBox F64.zero
                   (mkWorld (<[ ["root"; "city"; "K"; "K_1_0.s"] :=
                                 File 8192 (Sqlite [mkTable "K_4_1" [tile_300_70];
                                                    mkTable "K_5_1" []]) ]>
                               (files world_city)) [])
                   8192 [mkTable "K_4_1" [tile_300_70]; mkTable "K_5_1" []] "K_5_1"
                   (SqlError "sql: Scan error on column index 0: converting NULL to int64 is unsupported")
                   _ _ _ _)).
  - vm_compute. reflexivity.
  - right. left. reflexivity.
  - reflexivity.
  - vm_compute. reflexivity.
Defined.

(** ** The catalogue *)

Section CatalogueCache.
Context `{GoLib}.

(** The files after a sidecar was written: the sidecar, and its name in
    the parent directory; everything else is as before. *)
Lemma write_sidecar_files p repo w w' :
  write_sidecar p repo w = (Ok repo, w') ->
  exists r names n,
    files w !! parent p = Some (Dir r true names)
    /\ last p = Some n
    /\ files w'
       = <[p := File (json_len repo) (Json repo)]>
           (<[p := File 0 Opaque]>
              (<[parent p := Dir r true (add_name n names)]> (files w)))
    /\ sql_log w' = sql_log w.
Proof.
  unfold write_sidecar, bind, wrapping, lift, json_MarshalIndent.
  destruct (F64.is_finite (Lng repo) && F64.is_finite (Lat repo) && F64.is_finite (Size repo));
    [| discriminate].
  unfold os_Create.
  destruct (files w !! parent p) as [[r [] names | size b] |]; try discriminate.
  destruct (last p) as [n |]; [| discriminate].
  destruct (files w !! p) as [[? ? ? | ? ?] |] eqn:Hp; try discriminate;
    unfold file_Write; cbn [files sql_log fst snd]; rewrite lookup_insert_eq;
    (destruct (write_fault p (json_len repo)) as [k |]; [discriminate |]);
    intros E; injection E as <-; exists r, names, n; auto.
Qed.

(** A successful scan is cached: the sidecar it wrote reads back as the
    descriptor it returned, so the next listing of the directory returns
    that descriptor from the sidecar, opens no database and changes
    nothing.  (The JSON text of a descriptor is taken to decode to it.) *)
Theorem scan_result_is_cached baseDir entry w repo w' :
  analysisRepository baseDir entry w = (Ok repo, w') ->
  readRepositoryInfo baseDir entry w' = (Ok repo, w')
  /\ (de_IsDir entry = true ->
      forall repositories,
        list_entries baseDir [entry] repositories w' = (Ok (repositories ++ [repo]), w')).
Proof.
  intros Hrun.
  assert (Hside : files w' !! sidecar baseDir (de_Name entry)
                  = Some (File (json_len repo) (Json repo))).
  { destruct (analysisRepository_scan baseDir entry w) as [l E]. rewrite Hrun in E.
    destruct (shards_of (files w) _) as [shards | e]; [| discriminate].
    destruct (write_sidecar_cases (sidecar baseDir (de_Name entry))
                (described (files w) (de_Name entry) shards)
                (mkWorld (files w) (sql_log w ++ l))) as [(w2 & Hw & Hf & _) | (e & w2 & Hw)];
      rewrite Hw in E; [| discriminate].
    injection E as -> ->. exact Hf. }
  assert (Hread : readRepositoryInfo baseDir entry w' = (Ok repo, w')).
  { unfold readRepositoryInfo, bind, wrapping, os_Open, json_Decode, bind, os_ReadFile.
    rewrite Hside. cbn. rewrite Hside. reflexivity. }
  split; [exact Hread |].
  intros Hd repositories. cbn [list_entries]. rewrite Hd.
  unfold bind, attempt. rewrite Hread. reflexivity.
Qed.


(** [ListRepositories] fails exactly when the root cannot be listed, with
    the error of [os.ReadDir]; otherwise it returns one descriptor for each
    directory among the entries, and none for the other entries. *)
Theorem ListRepositories_outcome baseDir w :
  match run (files w) (os_ReadDir baseDir) with
  | Err e => ListRepositories baseDir w = (Err e, w)
  | Ok dirs =>
      exists repos w',
        ListRepositories baseDir w = (Ok repos, w')
        /\ length repos = count_dirs dirs
  end.
Proof.
  unfold ListRepositories, bind.
  assert (E : os_ReadDir baseDir w = (run (files w) (os_ReadDir baseDir), w)).
  { unfold run, os_ReadDir. cbn [files].
    destruct (files w !! baseDir) as [[[] ? ? | ? ?] |]; reflexivity. }
  rewrite E. destruct (run (files w) (os_ReadDir baseDir)) as [dirs | e]; [| reflexivity].
  assert (Hall : forall ds w0 acc,
             exists repos w',
               list_entries baseDir ds acc w0 = (Ok (acc ++ repos), w')
               /\ length repos = count_dirs ds).
  { induction ds as [| d ds IH]; intros w0 acc.
    - exists [], w0. rewrite app_nil_r. split; reflexivity.
    - cbn [list_entries]. unfold count_dirs. cbn [List.filter].
      destruct (de_IsDir d); [| apply IH].
      unfold bind at 1. unfold attempt at 1.
      destruct (readRepositoryInfo baseDir d w0) as [[repo | e] w1].
      + destruct (IH w1 (acc ++ [repo])) as (repos & w' & E1 & Hlen).
        exists (repo :: repos), w'. rewrite E1, <- app_assoc. cbn. rewrite Hlen.
        split; reflexivity.
      + unfold bind at 1. unfold attempt at 1.
        destruct (analysisRepository baseDir d w1) as [[repo | e'] w2].
        * destruct (IH w2 (acc ++ [repo])) as (repos & w' & E1 & Hlen).
          exists (repo :: repos), w'. rewrite E1, <- app_assoc. cbn. rewrite Hlen.
          split; reflexivity.
        * destruct (IH w2 (acc ++ [placeholder (de_Name d)])) as (repos & w' & E1 & Hlen).
          exists (placeholder (de_Name d) :: repos), w'.
          rewrite E1, <- app_assoc. cbn. rewrite Hlen. split; reflexivity. }
  destruct (Hall dirs w []) as (repos & w' & E1 & Hlen).
  exists repos, w'. split; [exact E1 | exact Hlen].
Qed.

End CatalogueCache.

Lemma scan_result_is_cached_witness :
  fst (readRepositoryInfo ["root"] (mkDirEntry "city" true)
         (snd (@analysisRepository eval_lib ["root"] (mkDirEntry "city" true) world_corrupt)))
  = fst (@analysisRepository eval_lib ["root"] (mkDirEntry "city" true) world_corrupt).
Proof.
  destruct (@analysisRepository eval_lib ["root"] (mkDirEntry "city" true) world_corrupt)
    as [[repo | e] w'] eqn:E.
  - cbn [fst snd].
    rewrite (proj1 (@scan_result_is_cached eval_lib ["root"] (mkDirEntry "city" true)
                      world_corrupt repo w' E)).
    reflexivity.
  - vm_compute in E. discriminate E.
Defined.


Section CatalogueReading.
Context `{GoLib}.

Lemma list_entries_cached baseDir w dirs repositories :
  Forall (fun d => de_IsDir d = true ->
                   exists size r,
                     files w !! sidecar baseDir (de_Name d) = Some (File size (Json r)))
         dirs ->
  list_entries baseDir dirs repositories w
  = (Ok (repositories ++ omap (cached_descriptor (files w) baseDir) dirs), w).
Proof.
  intros Hall. revert repositories.
  induction Hall as [| d dirs Hd _ IH]; intros repositories.
  - cbn. rewrite app_nil_r. reflexivity.
  - cbn [list_entries omap list_omap]. unfold cached_descriptor at 1.
    destruct (de_IsDir d); [| apply IH].
    destruct (Hd eq_refl) as (size & r & Hside). rewrite Hside.
    unfold bind at 1. unfold attempt at 1.
    assert (Hread : readRepositoryInfo baseDir d w = (Ok r, w)).
    { unfold readRepositoryInfo, bind, wrapping, os_Open, json_Decode, bind, os_ReadFile.
      rewrite Hside. cbn. rewrite Hside. reflexivity. }
    rewrite Hread, IH, <- app_assoc. reflexivity.
Qed.

(** A listing served from the cache: when every directory of the root has
    a sidecar that parses, [ListRepositories] returns the descriptors of
    the sidecars in the order of the directory listing, as they are stored
    (they are not checked against the shards), skips the entries that are
    no directory, opens no database and changes nothing. *)
Theorem listing_from_cache baseDir w dirs :
  run (files w) (os_ReadDir baseDir) = Ok dirs ->
  Forall (fun d => de_IsDir d = true ->
                   exists size r,
                     files w !! sidecar baseDir (de_Name d) = Some (File size (Json r)))
         dirs ->
  ListRepositories baseDir w
  = (Ok (omap (cached_descriptor (files w) baseDir) dirs), w).
Proof.
  intros Hdirs Hall. unfold ListRepositories, bind.
  assert (E : os_ReadDir baseDir w = (run (files w) (os_ReadDir baseDir), w)).
  { unfold run, os_ReadDir. cbn [files].
    destruct (files w !! baseDir) as [[[] ? ? | ? ?] |]; reflexivity. }
  rewrite E, Hdirs. apply (list_entries_cached baseDir w dirs [] Hall).
Qed.

End CatalogueReading.

Lemma listing_from_cache_witness :
  @ListRepositories eval_lib ["root"] world_cached = (Ok [city_descriptor], world_cached).
Proof.
  refine (@listing_from_cache eval_lib ["root"] world_cached
            [mkDirEntry "city" true; mkDirEntry "notes.txt" false] _ _).
  - vm_compute. reflexivity.
  - constructor; [| constructor; [| constructor]].
    + intros _. exists 160, city_descriptor. vm_compute. reflexivity.
    + discriminate.
Defined.

(** ** The files a scan looks at *)

Lemma run_os_ReadDir_entries fs p ds d :
  run fs (os_ReadDir p) = Ok ds -> In d ds ->
  de_IsDir d = is_dir (fs !! (p ++ [de_Name d])).
Proof.
  unfold run, os_ReadDir. cbn [files].
  destruct (fs !! p) as [[[] ? names | ? ?] |]; try discriminate.
  intros E. injection E as <-. intros Hin. apply in_map_iff in Hin as (n & <- & _).
  reflexivity.
Qed.

Lemma all_files_In fs subdirs shards f :
  all_files fs subdirs = Ok shards -> In f shards ->
  exists sub fl, In sub subdirs /\ run fs (listAllFile sub) = Ok fl /\ In f fl.
Proof.
  revert shards. induction subdirs as [| sub subdirs IH]; intros shards.
  - cbn. intros E. injection E as <-. intros [].
  - cbn [all_files].
    destruct (run fs (listAllFile sub)) as [fl | e] eqn:Hfl; [| discriminate].
    destruct (all_files fs subdirs) as [r | e]; [| discriminate].
    intros E. injection E as <-. intros Hin. apply in_app_or in Hin as [Hin | Hin].
    + exists sub, fl. split; [left; reflexivity | split; [exact Hfl | exact Hin]].
    + destruct (IH r eq_refl Hin) as (sub' & fl' & Hs & Hr & Hf).
      exists sub', fl'. split; [right; exact Hs | split; assumption].
Qed.

(** A scan looks at nothing but the files whose name ends in ".s" inside
    the subdirectories of the repository named by one capital letter: a
    shard stored anywhere else does not count towards the descriptor. *)
Theorem scanned_shards_are_named fs repoDir shards f :
  shards_of fs repoDir = Ok shards ->
  In f shards ->
  exists letter name,
    f = repoDir ++ [letter; name]
    /\ is_zoom_letter letter = true
    /\ strings_HasSuffix name ".s" = true
    /\ is_dir (fs !! (repoDir ++ [letter])) = true
    /\ is_dir (fs !! f) = false.
Proof.
  unfold shards_of.
  destruct (run fs (listSubDir repoDir)) as [subdirs | e] eqn:Hsub; [| discriminate].
  intros Hall Hin.
  destruct (all_files_In fs subdirs shards f Hall Hin) as (sub & fl & Hs & Hfl & Hf).
  unfold listSubDir in Hsub.
  rewrite run_bind in Hsub; [| apply reads_os_ReadDir | intros; apply reads_ret].
  destruct (run fs (os_ReadDir repoDir)) as [ds |] eqn:Hds; [| discriminate].
  injection Hsub as <-.
  apply in_map_iff in Hs as (d & <- & Hd). apply List.filter_In in Hd as [Hd Hok].
  apply andb_prop in Hok as [Hdir Hletter].
  rewrite (run_os_ReadDir_entries fs repoDir ds d Hds Hd) in Hdir.
  unfold listAllFile in Hfl.
  rewrite run_bind in Hfl; [| apply reads_os_ReadDir | intros; apply reads_ret].
  destruct (run fs (os_ReadDir (repoDir ++ [de_Name d]))) as [es |] eqn:Hes; [| discriminate].
  injection Hfl as <-.
  apply in_map_iff in Hf as (en & <- & Hen). apply List.filter_In in Hen as [Hen Hok].
  apply andb_prop in Hok as [Hfile Hsuffix].
  rewrite (run_os_ReadDir_entries fs _ es en Hes Hen) in Hfile.
  exists (de_Name d), (de_Name en). rewrite <- app_assoc.
  split; [reflexivity |]. split; [exact Hletter |]. split; [exact Hsuffix |].
  split; [exact Hdir |]. rewrite <- app_assoc in Hfile.
  apply negb_true_iff in Hfile. exact Hfile.
Qed.

Lemma scanned_shards_are_named_witness :
  exists letter name,
    ["root"; "city"; "K"; "bad.s"] = ["root"; "city"] ++ [letter; name]
    /\ is_zoom_letter letter = true
    /\ strings_HasSuffix name ".s" = true
    /\ is_dir (files world_corrupt !! (["root"; "city"] ++ [letter])) = true
    /\ is_dir (files world_corrupt !! ["root"; "city"; "K"; "bad.s"]) = false.
Proof.
  refine (scanned_shards_are_named (files world_corrupt) ["root"; "city"]
            [["root"; "city"; "K"; "K_1_0.s"]; ["root"; "city"; "K"; "bad.s"]]
            ["root"; "city"; "K"; "bad.s"] _ _).
  - vm_compute. reflexivity.
  - right. left. reflexivity.
Defined.

(** ** [NewRepository] *)

Lemma os_MkdirAll_rev_dir rp w w' :
  os_MkdirAll_rev rp w = (Ok tt, w') -> is_dir (files w' !! rev rp) = true.
Proof.
  destruct rp as [| n rparent]; cbn [os_MkdirAll_rev].
  - destruct (files w !! rev []) as [[? ? ? | ? ?] |] eqn:Hp; try discriminate.
    intros E. injection E as <-. rewrite Hp. reflexivity.
  - destruct (files w !! rev (n :: rparent)) as [[? ? ? | ? ?] |] eqn:Hp; try discriminate.
    + intros E. injection E as <-. rewrite Hp. reflexivity.
    + destruct (os_MkdirAll_rev rparent w) as [[[] | e] w1]; try discriminate.
      destruct (files w1 !! rev rparent) as [[r [] names | ? ?] |]; try discriminate.
      intros E. injection E as <-. cbn [files]. rewrite lookup_insert_eq. reflexivity.
Qed.

Lemma os_Stat_dir p w :
  is_dir (files w !! p) = true -> os_Stat p w = (Ok (mkFileInfo 0 true), w).
Proof.
  unfold os_Stat. destruct (files w !! p) as [[? ? ? | ? ?] |]; try discriminate. reflexivity.
Qed.




